(** * MITRE ATT&CK version comparison: a shallow embedding of
    [Python/analyse_attack_markdown.py] and the properties of its loader,
    differ and reporter. *)

From Stdlib Require Import ZArith NArith String Ascii List Lia.
From Stdlib Require Import DecimalString.
From stdpp Require Import base decidable countable list gmap fin_maps fin_sets.

Local Open Scope N_scope.
Set Warnings "-clear-no-such-hyp".
Set Default Proof Using "Type".

(** ** Python values *)

(** A Python [str] is a sequence of Unicode code points. *)
Abbreviation codepoint := N (only parsing).
Abbreviation pystr := (list N) (only parsing).

(** ASCII literals of the source, as code points. *)
Definition py (s : string) : pystr :=
  List.map N_of_ascii (list_ascii_of_string s).
Arguments py : simpl never.

(** The values the program reads out of a record: JSON strings, and [None]
    (a JSON [null], or the default of [dict.get]). *)
Inductive pyval :=
  | PyNone
  | PyStr (s : pystr).

#[global] Instance pyval_eq_dec : EqDecision pyval.
Proof. solve_decision. Defined.

#[global] Instance pyval_countable : Countable pyval.
Proof.
  refine (inj_countable'
    (fun v => match v with PyNone => None | PyStr s => Some s end)
    (fun o => match o with None => PyNone | Some s => PyStr s end) _).
  by intros [].
Defined.

(** Truth value of a Python object: [None] and the empty string are false. *)
Definition truthy (v : pyval) : bool :=
  match v with
  | PyNone => false
  | PyStr [] => false
  | PyStr (_ :: _) => true
  end.

(** [str(v)], as an f-string field renders it. *)
Definition str_of (v : pyval) : pystr :=
  match v with
  | PyNone => py "None"
  | PyStr s => s
  end.

(** A record of a snapshot: a JSON object, parsed into a [dict]. *)
Abbreviation obj := (gmap (list N) pyval) (only parsing).

(** ** Exceptions *)

Inductive pyexn :=
  | FileNotFoundError (path : pystr)
  | JSONDecodeError (path : pystr)
  | KeyError (key : pyval)
  | ZeroDivisionError.

Inductive result (A : Type) :=
  | Ok (a : A)
  | Raise (e : pyexn).
Arguments Ok {A} a.
Arguments Raise {A} e.

#[global] Instance result_ret : MRet result := fun A a => Ok a.
#[global] Instance result_bind : MBind result := fun A B f m =>
  match m with
  | Ok a => f a
  | Raise e => Raise e
  end.

(** [d[k]] on a record. *)
Definition getitem (o : obj) (k : pystr) : result pyval :=
  match o !! k with
  | Some v => Ok v
  | None => Raise (KeyError (PyStr k))
  end.

(** [d.get(k)] and [d.get(k, default)]. *)
Definition get (o : obj) (k : pystr) : pyval := default PyNone (o !! k).
Definition get_default (o : obj) (k : pystr) (d : pyval) : pyval :=
  default d (o !! k).

(** ** [str] methods *)

(** [text.replace(old, new)] for a one-character [old]. *)
Definition str_replace (old : codepoint) (new : pystr) (text : pystr) : pystr :=
  flat_map (fun c => if c =? old then new else [c]) text.

(** Unicode white space, as [str.split] and [str.isspace] see it. *)
Definition isspace (c : codepoint) : bool :=
  ((9 <=? c) && (c <=? 13)) || ((28 <=? c) && (c <=? 32))
  || (c =? 0x85) || (c =? 0xA0) || (c =? 0x1680)
  || ((0x2000 <=? c) && (c <=? 0x200A))
  || (c =? 0x2028) || (c =? 0x2029) || (c =? 0x202F) || (c =? 0x205F)
  || (c =? 0x3000).

(** [text.split()]: the maximal runs of non-space characters. [cur] is the
    word being read, [None] between words. *)
Fixpoint split_go (cur : option pystr) (text : pystr) : list pystr :=
  match text with
  | [] => match cur with Some w => [w] | None => [] end
  | c :: text' =>
      if isspace c then
        match cur with
        | Some w => w :: split_go None text'
        | None => split_go None text'
        end
      else split_go (Some (default [] cur ++ [c])) text'
  end.

Definition str_split (text : pystr) : list pystr := split_go None text.

(** [sep.join(parts)]. *)
Fixpoint str_join (sep : pystr) (parts : list pystr) : pystr :=
  match parts with
  | [] => []
  | [w] => w
  | w :: rest => w ++ sep ++ str_join sep rest
  end.

(** ** [clean_text] *)

(** The replacement table, in the order the [dict] literal lists it. *)
Definition replacements : list (codepoint * pystr) :=
  [ (0x2019, py "'");
    (0x2018, py "'");
    (0x201C, [34]);
    (0x201D, [34]);
    (0x2013, py "-");
    (0x2014, py "--");
    (0x2026, py "...");
    (0x00E6, py "ae");
    (0x00C6, py "AE");
    (0x00FC, py "u");
    (0x00DC, py "U");
    (0x00F6, py "o");
    (0x00D6, py "O");
    (0x00E4, py "a");
    (0x00C4, py "A");
    (0x00DF, py "ss");
    (0x00F1, py "n");
    (0x00D1, py "N") ].

(** The loop [for unicode_char, ascii_char in replacements.items()]. *)
Definition clean_loop (table : list (codepoint * pystr)) (text : pystr) : pystr :=
  fold_left (fun t r => str_replace (fst r) (snd r) t) table text.

Definition clean_text (text : pyval) : pyval :=
  if negb (truthy text) then text
  else match text with
       | PyStr s => PyStr (clean_loop replacements s)
       | PyNone => PyNone
       end.

(** ** The Python runtime

    Two things the program leaves to the interpreter: which non-ASCII code
    points the pattern [\d] accepts (Unicode category Nd), and the order in
    which a [set] is iterated (hash-table order, which for [str] keys changes
    with the hash seed of the process). *)
Class Runtime := {
  unicode_Nd : codepoint -> bool;
  set_iter : gset pyval -> list pyval;
  set_iter_perm : forall X : gset pyval, set_iter X ≡ₚ elements X
}.

(** ** The [re] patterns of the program *)

(** A pattern is a sequence of items: a character class, or a greedy [+]
    over one. *)
Inductive item :=
  | One (p : codepoint -> bool)
  | Plus (p : codepoint -> bool).

(** What the items matched, one piece per item, and the text left over. *)
Abbreviation matched := (option (list (list N) * list N)) (only parsing).

Definition with_piece (w : pystr) (m : matched) : matched :=
  match m with
  | Some (ps, rest) => Some (w :: ps, rest)
  | None => None
  end.

(** [cls+] followed by the continuation [k]: take as many characters as the
    class accepts, and give back one at a time while [k] fails. *)
Fixpoint plus_more (p : codepoint -> bool) (k : pystr -> matched)
    (taken text : pystr) : matched :=
  match text with
  | c :: text' =>
      if p c then
        match plus_more p k (taken ++ [c]) text' with
        | Some m => Some m
        | None => with_piece (taken ++ [c]) (k text')
        end
      else None
  | [] => None
  end.

(** A match anchored at the start of the text. *)
Fixpoint match_here (r : list item) : pystr -> matched :=
  match r with
  | [] => fun text => Some ([], text)
  | One p :: r' => fun text =>
      match text with
      | c :: text' => if p c then with_piece [c] (match_here r' text') else None
      | [] => None
      end
  | Plus p :: r' => plus_more p (match_here r') []
  end.

(** [re.search]: the match at the leftmost position that has one. *)
Fixpoint re_search (r : list item) (text : pystr) : option (list pystr) :=
  match match_here r text with
  | Some (ps, _) => Some ps
  | None =>
      match text with
      | [] => None
      | _ :: text' => re_search r text'
      end
  end.

(** [re.sub] for a pattern that matches no empty string: left to right,
    each match replaced by [repl] of its pieces, the scan resuming after the
    match ([skip] counts the characters of a match still to pass over). *)
Fixpoint re_sub_go (r : list item) (repl : list pystr -> pystr)
    (skip : nat) (text : pystr) : pystr :=
  match text with
  | [] => []
  | c :: text' =>
      match skip with
      | S n => re_sub_go r repl n text'
      | O =>
          match match_here r text with
          | Some (ps, _) =>
              repl ps ++ re_sub_go r repl (length (concat ps) - 1) text'
          | None => c :: re_sub_go r repl 0 text'
          end
      end
  end.

Definition re_sub (r : list item) (repl : list pystr -> pystr)
    (text : pystr) : pystr :=
  re_sub_go r repl 0 text.

Definition is_char (a : codepoint) (c : codepoint) : bool := c =? a.
Definition not_char (a : codepoint) (c : codepoint) : bool := negb (c =? a).

(** [\d]: a decimal digit, ASCII or not. *)
Definition isdigit `{Runtime} (c : codepoint) : bool :=
  if c <? 128 then (48 <=? c) && (c <=? 57) else unicode_Nd c.

(** [r'(\d+\.\d+)']; group 1 is the whole match. *)
Definition version_re `{Runtime} : list item :=
  [Plus isdigit; One (is_char 46); Plus isdigit].

(** [r'\[([^\]]+)\]\([^\)]+\)']; group 1 is the second item. *)
Definition link_re : list item :=
  [One (is_char 91); Plus (not_char 93); One (is_char 93);
   One (is_char 40); Plus (not_char 41); One (is_char 41)].

(** The replacement [r'\1'] for [link_re]. *)
Definition link_group1 (ps : list pystr) : pystr := default [] (ps !! 1%nat).

(** ** [extract_version] *)

Definition extract_version `{Runtime} (filename : pystr) : pystr :=
  match re_search version_re filename with
  | Some ps => concat ps
  | None => py "unknown"
  end.

(** ** Description cleaning *)

(** [' '.join(desc.split())] *)
Definition collapse_spaces (desc : pystr) : pystr :=
  str_join (py " ") (str_split desc).

(** The [desc] of a listing line. [links] tells whether the block has the
    [re.sub] line: the four blocks after "New Attack Techniques" do. *)
Definition describe (links : bool) (fallback : pystr) (o : obj) : pystr :=
  match o !! py "description" with
  | Some d =>
      if truthy d then
        let desc := str_replace 10 (py " ") (str_of (clean_text d)) in
        let desc := if links then re_sub link_re link_group1 desc else desc in
        collapse_spaces desc
      else fallback
  | None => fallback
  end.

(** ** Loader *)

Inductive file_state :=
  | Missing
  | Unparsable
  | Json (objects : list (gmap (list N) pyval)).

(** What a path holds. [Json objects] is a bundle whose ['objects'] member
    is the list [objects] of records. *)
Abbreviation filesystem := (list N -> file_state) (only parsing).

(** [with open(path) as f: data = json.load(f)], then [data['objects']]. *)
Definition load (fs : filesystem) (path : pystr) : result (list obj) :=
  match fs path with
  | Missing => Raise (FileNotFoundError path)
  | Unparsable => Raise (JSONDecodeError path)
  | Json objects => Ok objects
  end.

(** A [for] loop whose body may raise. *)
Fixpoint for_loop {A S : Type} (body : S -> A -> result S) (l : list A)
    (s : S) : result S :=
  match l with
  | [] => Ok s
  | a :: l' => s' ← body s a; for_loop body l' s'
  end.

(** [{obj['id']: obj for obj in objects if 'id' in obj}] *)
Definition index_step (m : gmap pyval obj) (o : obj) : gmap pyval obj :=
  match o !! py "id" with
  | Some k => <[k := o]> m
  | None => m
  end.

Definition index_by_id (objects : list obj) : gmap pyval obj :=
  fold_left index_step objects ∅.

(** [objects16[id_]] *)
Definition lookup_id (objects : gmap pyval obj) (k : pyval) : result obj :=
  match objects !! k with
  | Some o => Ok o
  | None => Raise (KeyError k)
  end.

(** [for obj in objects: types[obj['type']] += 1] on a [defaultdict(int)]. *)
Definition count_step (types : gmap pyval Z) (o : obj) : result (gmap pyval Z) :=
  t ← getitem o (py "type");
  Ok (<[t := (default 0 (types !! t) + 1)%Z]> types).

Definition count_types (objects : list obj) : result (gmap pyval Z) :=
  for_loop count_step objects ∅.

(** [types['attack-pattern']] on the [defaultdict(int)]. *)
Definition type_count (types : gmap pyval Z) (t : pystr) : Z :=
  default 0%Z (types !! PyStr t).

(** ** Differ *)

Section differ.
Context `{Runtime}.
Variables objects16 objects17 : gmap pyval obj.

Definition ids16 : gset pyval := dom objects16.
Definition ids17 : gset pyval := dom objects17.

Definition new_ids : gset pyval := ids17 ∖ ids16.
Definition removed_ids : gset pyval := ids16 ∖ ids17.
Definition common_ids : gset pyval := ids16 ∩ ids17.

(** The body of [for id_ in common_ids]. *)
Definition modified_step (acc : gset pyval) (id_ : pyval)
    : result (gset pyval) :=
  o16 ← lookup_id objects16 id_;
  o17 ← lookup_id objects17 id_;
  if decide (get o16 (py "modified") ≠ get o17 (py "modified"))
  then Ok ({[id_]} ∪ acc)
  else Ok acc.

Definition modified_ids : result (gset pyval) :=
  for_loop modified_step (set_iter common_ids) ∅.
End differ.

(** [for id_ in ids: obj = objects[id_]; by_type[obj['type']].append(obj)]
    on a [defaultdict(list)]. *)
Definition group_step (objects : gmap pyval obj)
    (by_type : gmap pyval (list obj)) (id_ : pyval)
    : result (gmap pyval (list obj)) :=
  o ← lookup_id objects id_;
  t ← getitem o (py "type");
  Ok (<[t := default [] (by_type !! t) ++ [o]]> by_type).

Definition group_by_type `{Runtime} (ids : gset pyval)
    (objects : gmap pyval obj) : result (gmap pyval (list obj)) :=
  for_loop (group_step objects) (set_iter ids) ∅.

(** ** Number formatting *)

Definition digits (n : N) : pystr :=
  py (NilZero.string_of_uint (N.to_uint n)).

(** A comma after every third digit, on the reversed digits. *)
Fixpoint group3 (ds : pystr) : pystr :=
  match ds with
  | a :: b :: c :: rest =>
      match rest with
      | [] => ds
      | _ :: _ => a :: b :: c :: 44 :: group3 rest
      end
  | _ => ds
  end.

(** [f"{n}"], [f"{n:,}"], [f"{n:+d}"] and [f"{n:+,}"] for an [int]. *)
Definition fmt_plain (n : Z) : pystr := digits (Z.abs_N n).
Definition fmt_comma (n : Z) : pystr := rev (group3 (rev (digits (Z.abs_N n)))).
Definition sign_minus (n : Z) : pystr := if (n <? 0)%Z then py "-" else [].
Definition sign_always (n : Z) : pystr := if (n <? 0)%Z then py "-" else py "+".

Definition fmt (n : Z) : pystr := sign_minus n ++ fmt_plain n.
Definition fmt_c (n : Z) : pystr := sign_minus n ++ fmt_comma n.
Definition fmt_sd (n : Z) : pystr := sign_always n ++ fmt_plain n.
Definition fmt_sc (n : Z) : pystr := sign_always n ++ fmt_comma n.

(** [len(x)] *)
Definition len {A} (l : list A) : Z := Z.of_nat (length l).
Definition set_len (X : gset pyval) : Z := Z.of_nat (size X).

(** [a // b] *)
Definition floordiv (a b : Z) : result Z :=
  if decide (b = 0%Z) then Raise ZeroDivisionError else Ok (a / b)%Z.

(** [len(modified_ids)*100//len(common_ids)] *)
Definition modified_percent (modified common : gset pyval) : result Z :=
  floordiv (set_len modified * 100) (set_len common).

(** ** Reporter *)

Definition nl : pystr := [10].

(** One row of the overview table. *)
Definition overview_row (label : pystr) (types16 types17 : gmap pyval Z)
    (t : pystr) : pystr :=
  py "| **" ++ label ++ py "** | " ++ fmt (type_count types16 t)
  ++ py " | " ++ fmt (type_count types17 t)
  ++ py " | " ++ fmt_sd (type_count types17 t - type_count types16 t)
  ++ py " |".

(** [f"{i}. **{name}** - {desc}"] *)
Definition listing_line (links : bool) (fallback : pystr) (i : nat)
    (o : obj) : pystr :=
  let name := clean_text (get_default o (py "name") (PyStr (py "N/A"))) in
  fmt (Z.of_nat i) ++ py ". **" ++ str_of name ++ py "** - "
  ++ describe links fallback o.

(** One "New ..." block: emitted when the type is a key of [new_by_type];
    [enumerate(..., 1)] numbers the lines from 1. *)
Definition listing (t title : pystr) (links : bool) (fallback : pystr)
    (new_by_type : gmap pyval (list obj)) : list pystr :=
  match new_by_type !! PyStr t with
  | Some objs =>
      [py "### " ++ title ++ py " (" ++ fmt (len objs) ++ py " total)" ++ nl]
      ++ imap (fun i o => listing_line links fallback (S i) o) objs
      ++ [[]]
  | None => []
  end.

(** [by_type.get('relationship', []).__len__()] *)
Definition relationships (by_type : gmap pyval (list obj)) : Z :=
  len (default [] (by_type !! PyStr (py "relationship"))).

Section report.
Context `{Runtime}.
Variables (version1 version2 : pystr) (data16 data17 : list obj).

(** The list [output], from the indexes on. *)
Definition build_output : result (list pystr) :=
  let objects16 := index_by_id data16 in
  let objects17 := index_by_id data17 in
  types16 ← count_types data16;
  types17 ← count_types data17;
  let new := new_ids objects16 objects17 in
  let removed := removed_ids objects16 objects17 in
  let common := common_ids objects16 objects17 in
  modified ← modified_ids objects16 objects17;
  new_by_type ← group_by_type new objects17;
  removed_by_type ← group_by_type removed objects16;
  let head :=
    [ py "# MITRE ATT&CK Version " ++ version1 ++ py " to " ++ version2
        ++ py " Changes Summary" ++ nl;
      py "## Version Overview" ++ nl;
      py "| Component | Version " ++ version1 ++ py " | Version " ++ version2
        ++ py " | Change |";
      py "|-----------|--------------|--------------|--------|";
      py "| **Release Date** | - | - | - |";
      py "| **Total Objects** | " ++ fmt_c (len data16) ++ py " | "
        ++ fmt_c (len data17) ++ py " | "
        ++ fmt_sc (len data17 - len data16) ++ py " |";
      overview_row (py "Attack Patterns") types16 types17 (py "attack-pattern");
      overview_row (py "Intrusion Sets") types16 types17 (py "intrusion-set");
      overview_row (py "Malware") types16 types17 (py "malware");
      overview_row (py "Tools") types16 types17 (py "tool");
      overview_row (py "Campaigns") types16 types17 (py "campaign");
      [];
      py "## Major Changes Summary" ++ nl;
      py "### Overall Statistics" ++ nl;
      py "- **New Objects Added**: " ++ fmt_c (set_len new);
      py "- **Objects Removed**: " ++ fmt_c (set_len removed)
        ++ py " (primarily relationships)";
      py "- **Modified Objects**: " ++ fmt_c (set_len modified);
      py "- **Net Change**: " ++ fmt_sd (set_len new - set_len removed)
        ++ py " objects" ++ nl ] in
  let listings :=
    listing (py "attack-pattern") (py "New Attack Techniques") false
      (py "Technique for adversary operations.") new_by_type
    ++ listing (py "intrusion-set") (py "New Threat Actors") true
      (py "Advanced Persistent Threat group.") new_by_type
    ++ listing (py "malware") (py "New Malware Families") true
      (py "Malware family.") new_by_type
    ++ listing (py "tool") (py "New Tools") true
      (py "Tool for adversary operations.") new_by_type
    ++ listing (py "campaign") (py "New Campaigns") true
      (py "Campaign.") new_by_type in
  pct ← modified_percent modified common;
  let technical :=
    [ py "## Technical Changes Summary" ++ nl;
      py "- **Relationships Removed**: " ++ fmt_c (relationships removed_by_type);
      py "- **Relationships Added**: " ++ fmt_c (relationships new_by_type);
      py "- **Objects Modified**: " ++ fmt_c (set_len modified) ++ py " ("
        ++ fmt pct ++ py "% of common objects)" ++ nl ] in
  pct' ← modified_percent modified common;
  let timeline :=
    [ py "## Version Migration Timeline" ++ nl;
      py "- **Version " ++ version1 ++ py " to " ++ version2 ++ py "**";
      py "- **Total Objects Changed**: " ++ fmt_c (set_len new + set_len removed);
      py "- **Modification Rate**: " ++ fmt pct'
        ++ py "% of common objects updated" ] in
  Ok (head ++ listings ++ technical ++ timeline).
End report.

(** What a run leaves behind: the [print] calls and the files written. *)
Record effects := {
  printed : list (list N);
  written : list (list N * list N)
}.

Definition output_filename (version1 version2 : pystr) : pystr :=
  py "mitre_attack_changes_" ++ version1 ++ py "_to_" ++ version2 ++ py ".md".

(** The three [print] calls before the files are opened. *)
Definition reading `{Runtime} (file1 file2 : pystr) : list pystr :=
  [ py "Reading MITRE ATT&CK files...";
    py "  From: " ++ file1 ++ py " (version " ++ extract_version file1 ++ py ")";
    py "  To: " ++ file2 ++ py " (version " ++ extract_version file2 ++ py ")" ].

Definition analyse_attack_versions_markdown `{Runtime} (fs : filesystem)
    (file1 file2 : pystr) : effects * result unit :=
  let version1 := extract_version file1 in
  let version2 := extract_version file2 in
  match
    data16 ← load fs file1;
    data17 ← load fs file2;
    build_output version1 version2 data16 data17
  with
  | Raise e => ({| printed := reading file1 file2; written := [] |}, Raise e)
  | Ok output =>
      let name := output_filename version1 version2 in
      let text := str_join nl output in
      ({| printed := reading file1 file2
                     ++ [py "Markdown summary written to: " ++ name; text];
          written := [(name, text)] |}, Ok tt)
  end.

(** ** Command line *)

(** How the process ends: [sys.exit(code)], an uncaught exception, or the
    end of the script. *)
Inductive ending :=
  | Exit (code : Z)
  | Uncaught (e : pyexn)
  | Done.

(** The exit status the shell sees. *)
Definition status (e : ending) : Z :=
  match e with
  | Exit code => code
  | Uncaught _ => 1%Z
  | Done => 0%Z
  end.

(** [os.path.exists(path)] *)
Definition path_exists (fs : filesystem) (path : pystr) : bool :=
  match fs path with
  | Missing => false
  | _ => true
  end.

Definition usage : list pystr :=
  [ py "Usage: python analyse_attack_markdown.py <from_version.json> <to_version.json>";
    py "Example: python analyse_attack_markdown.py enterprise-attack-16.1.json enterprise-attack-17.0.json" ].

Definition not_found (file : pystr) : pystr :=
  py "Error: File '" ++ file ++ py "' not found".

(** The [if __name__ == "__main__":] block; [argv] is [sys.argv]. *)
Definition main `{Runtime} (fs : filesystem) (argv : list pystr)
    : effects * ending :=
  match argv with
  | [_; file1; file2] =>
      if negb (path_exists fs file1) then
        ({| printed := [not_found file1]; written := [] |}, Exit 1)
      else if negb (path_exists fs file2) then
        ({| printed := [not_found file2]; written := [] |}, Exit 1)
      else
        match analyse_attack_versions_markdown fs file1 file2 with
        | (eff, Ok _) => (eff, Done)
        | (eff, Raise e) => (eff, Uncaught e)
        end
  | _ => ({| printed := usage; written := [] |}, Exit 1)
  end.

(** ** Two runtimes

    One iterates a set in the order of [elements], the other in the reverse
    order; neither knows a non-ASCII digit. *)
Definition sorted_runtime : Runtime :=
  {| unicode_Nd := fun _ => false;
     set_iter := elements;
     set_iter_perm := fun X => reflexivity (elements X) |}.

Definition reversed_runtime : Runtime :=
  {| unicode_Nd := fun _ => false;
     set_iter := fun X => reverse (elements X);
     set_iter_perm := fun X => reverse_Permutation (elements X) |}.

(** ** Sample data *)

Definition record (id type : string) : obj :=
  {[ py "id" := PyStr (py id); py "type" := PyStr (py type) ]}.

Definition stamped (id type modified : string) : obj :=
  <[py "modified" := PyStr (py modified)]> (record id type).

(** A file system with two bundles. *)
Definition two_files (file1 : pystr) (data16 : list obj) (file2 : pystr)
    (data17 : list obj) : filesystem :=
  fun path =>
    if decide (path = file1) then Json data16
    else if decide (path = file2) then Json data17
    else Missing.

Definition link_sample : list N := py "See [here](http://x) for more".

(** A record added in the newer snapshot, of the given type, described by
    [link_sample]. *)
Definition added_sample (type : string) : gmap (list N) pyval :=
  <[py "description" := PyStr link_sample]> (record "new" type).

(** The report for one unchanged tool and one [added_sample]. *)
Definition sample_report (type : string) : result (list (list N)) :=
  @build_output sorted_runtime (py "16.1") (py "17.0")
    [record "old" "tool"] [record "old" "tool"; added_sample type].

(** A file system with no file at all. *)
Definition no_files : list N → file_state := fun _ => Missing.

(** A record with a [type] and no [id]. *)
Definition anonymous (type : string) : gmap (list N) pyval :=
  {[ py "type" := PyStr (py type) ]}.

(** A record with an [id] and no [type]. *)
Definition untyped (id : string) : gmap (list N) pyval :=
  {[ py "id" := PyStr (py id) ]}.

(** ** Vocabulary of the properties *)

(** The identifiers of a snapshot: the [id] of every record that has one. *)
Definition ids_of (objects : list obj) : gset pyval :=
  list_to_set (omap (fun o : obj => o !! py "id") objects).

Section markers.
Variables objects16 objects17 : gmap pyval obj.

(** The two records of an identifier carry different markers, where the
    marker of a record is what [.get('modified')] returns. *)
Definition marker_differs (k : pyval) : Prop :=
  ∃ o16 o17, objects16 !! k = Some o16 ∧ objects17 !! k = Some o17
    ∧ get o16 (py "modified") ≠ get o17 (py "modified").

Definition marker_equal (k : pyval) : Prop :=
  ∃ o16 o17, objects16 !! k = Some o16 ∧ objects17 !! k = Some o17
    ∧ get o16 (py "modified") = get o17 (py "modified").

End markers.

Definition of_type (t : pyval) (o : obj) : Prop := o !! py "type" = Some t.

#[global] Instance of_type_dec t o : Decision (of_type t o).
Proof. unfold of_type. apply _. Defined.

(** The record carries an identifier of [ids]. *)
Definition in_ids (ids : gset pyval) (o : obj) : Prop :=
  ∃ k, o !! py "id" = Some k ∧ k ∈ ids.

#[global] Instance in_ids_dec ids o : Decision (in_ids ids o).
Proof.
  unfold in_ids. destruct (o !! py "id") as [k|].
  - destruct (decide (k ∈ ids)); [left; eauto|right].
    intros (k' & [= <-] & ?). done.
  - right. by intros (k' & [=] & ?).
Defined.

(** The records of one type among those of [ids], in the order of the
    snapshot's object list. *)
Definition source_group (ids : gset pyval) (t : pyval) (data : list obj)
    : list obj :=
  filter (fun o => of_type t o ∧ in_ids ids o) data.

(** The same records in the order in which the set [ids] is iterated. *)
Definition iteration_group `{Runtime} (ids : gset pyval) (t : pyval)
    (objects : gmap pyval obj) : list obj :=
  filter (of_type t) (omap (fun k => objects !! k) (set_iter ids)).

(** No two records of the snapshot share an [id]. *)
Definition unique_ids (data : list obj) : Prop :=
  NoDup (omap (fun o : obj => o !! py "id") data).

Definition has_type (o : gmap (list N) pyval) : Prop :=
  is_Some (o !! py "type").

Definition lacks_type (o : gmap (list N) pyval) : Prop :=
  o !! py "type" = None.

(** The text does not go on with a character of the class. *)
Definition stops (p : N → bool) (text : list N) : Prop :=
  match text with
  | [] => True
  | c :: _ => p c = false
  end.

Definition all_of (p : N → bool) (run : list N) : Prop :=
  Forall (fun c => p c = true) run.

Section pairs.
Context `{Runtime}.

(** A dotted pair of digits: digits, a full stop, digits. *)
Definition dotted_pair (m : list N) : Prop :=
  ∃ d1 d2, m = d1 ++ [46] ++ d2 ∧ d1 ≠ [] ∧ d2 ≠ []
    ∧ all_of isdigit d1 ∧ all_of isdigit d2.

(** A dotted pair of digits begins at the start of the text. *)
Definition starts_with_pair (t : list N) : Prop :=
  ∃ m rest, t = m ++ rest ∧ dotted_pair m.

End pairs.

(** [needle] is a prefix of [hay]. *)
Fixpoint startswith (hay needle : list N) : bool :=
  match needle, hay with
  | [], _ => true
  | a :: needle', b :: hay' => (a =? b) && startswith hay' needle'
  | _ :: _, [] => false
  end.

(** The number of positions of [hay] at which [needle] occurs. *)
Fixpoint occurrences (needle hay : list N) : nat :=
  ((if startswith hay needle then 1 else 0)
   + match hay with
     | [] => 0
     | _ :: hay' => occurrences needle hay'
     end)%nat.

Definition nonspace (c : N) : bool := negb (isspace c).

Definition emits (r : result (list (list N))) (line : list N) : Prop :=
  ∃ output, r = Ok output ∧ line ∈ output.


(** A word: not empty, no white space in it. *)
Definition word (w : list N) : Prop := w ≠ [] ∧ all_of nonspace w.

(** A decimal digit of ASCII. *)
Definition decimal_digit (c : N) : Prop := 48 ≤ c ∧ c ≤ 57.

(** * Properties *)

(** ** The identifier sets (Differ) *)

Lemma dom_index_fold (objects : list obj) (m : gmap pyval obj) :
  dom (fold_left index_step objects m) = dom m ∪ ids_of objects.
Proof.
  revert m. induction objects as [|o objects IH]; intros m; simpl.
  - unfold ids_of. simpl. set_solver.
  - rewrite IH. unfold index_step, ids_of. simpl.
    destruct (o !! py "id") as [k|]; simpl.
    + rewrite dom_insert_L. set_solver.
    + reflexivity.
Qed.

Lemma dom_index_by_id (objects : list obj) :
  dom (index_by_id objects) = ids_of objects.
Proof.
  unfold index_by_id. rewrite dom_index_fold, dom_empty_L. set_solver.
Qed.

(** C2. For every pair of snapshots, [added] and [removed] are disjoint,
    [added ∪ common] is the set of identifiers of [to], and
    [removed ∪ common] is the set of identifiers of [from]. *)
Theorem differ_sets_partition (data16 data17 : list obj) :
  let objects16 := index_by_id data16 in
  let objects17 := index_by_id data17 in
  new_ids objects16 objects17 ## removed_ids objects16 objects17
  ∧ new_ids objects16 objects17 ∪ common_ids objects16 objects17 = ids_of data17
  ∧ removed_ids objects16 objects17 ∪ common_ids objects16 objects17
    = ids_of data16.
Proof.
  intros objects16 objects17.
  unfold new_ids, removed_ids, common_ids, ids16, ids17.
  subst objects16 objects17. rewrite !dom_index_by_id.
  split; [set_solver|].
  split; apply set_eq; intros k;
    destruct (decide (k ∈ ids_of data16)); destruct (decide (k ∈ ids_of data17));
    set_solver.
Qed.

(** The worked example: from [A(1, malware, t0); B(2, tool, t0)] to
    [A(1, malware, t1); C(3, malware, t0)]. *)
Example differ_worked_example :
  let data16 := [stamped "1" "malware" "t0"; stamped "2" "tool" "t0"] in
  let data17 := [stamped "1" "malware" "t1"; stamped "3" "malware" "t0"] in
  let objects16 := index_by_id data16 in
  let objects17 := index_by_id data17 in
  new_ids objects16 objects17 = {[ PyStr (py "3") ]}
  ∧ removed_ids objects16 objects17 = {[ PyStr (py "2") ]}
  ∧ common_ids objects16 objects17 = {[ PyStr (py "1") ]}
  ∧ @modified_ids sorted_runtime objects16 objects17 = Ok {[ PyStr (py "1") ]}
  ∧ @group_by_type sorted_runtime (new_ids objects16 objects17) objects17
    = Ok {[ PyStr (py "malware") := [stamped "3" "malware" "t0"] ]}
  ∧ @group_by_type sorted_runtime (removed_ids objects16 objects17) objects16
    = Ok {[ PyStr (py "tool") := [stamped "2" "tool" "t0"] ]}.
Proof. cbv zeta. repeat apply conj; vm_compute; reflexivity. Qed.

(** ** The modified set (Differ) *)

Lemma elem_of_set_iter `{Runtime} (X : gset pyval) (k : pyval) :
  k ∈ set_iter X ↔ k ∈ X.
Proof. rewrite (set_iter_perm X). apply elem_of_elements. Qed.

Lemma NoDup_set_iter `{Runtime} (X : gset pyval) : NoDup (set_iter X).
Proof. rewrite (set_iter_perm X). apply NoDup_elements. Qed.

Lemma lookup_id_Some (objects : gmap pyval obj) (k : pyval) (o : obj) :
  objects !! k = Some o → lookup_id objects k = Ok o.
Proof. unfold lookup_id. by intros ->. Qed.

Lemma getitem_Some (o : obj) (k : pystr) (v : pyval) :
  o !! k = Some v → getitem o k = Ok v.
Proof. unfold getitem. by intros ->. Qed.

Lemma getitem_None (o : obj) (k : pystr) :
  o !! k = None → getitem o k = Raise (KeyError (PyStr k)).
Proof. unfold getitem. by intros ->. Qed.

Section modified.
Context `{Runtime}.
Variables objects16 objects17 : gmap pyval obj.

Lemma modified_step_eq (acc : gset pyval) (k : pyval) (o16 o17 : obj) :
  objects16 !! k = Some o16 → objects17 !! k = Some o17 →
  modified_step objects16 objects17 acc k
  = if decide (get o16 (py "modified") ≠ get o17 (py "modified"))
    then Ok ({[k]} ∪ acc) else Ok acc.
Proof.
  intros E16 E17. unfold modified_step.
  by rewrite (lookup_id_Some _ _ _ E16), (lookup_id_Some _ _ _ E17).
Qed.

Lemma modified_loop (l : list pyval) (acc : gset pyval) :
  (∀ k, k ∈ l → k ∈ dom objects16 ∧ k ∈ dom objects17) →
  ∃ M, for_loop (modified_step objects16 objects17) l acc = Ok M
    ∧ ∀ k, k ∈ M ↔ k ∈ acc ∨ (k ∈ l ∧ marker_differs objects16 objects17 k).
Proof.
  revert acc. induction l as [|id_ l IH]; intros acc Hl; simpl.
  - exists acc. split; [done|]. intros k. set_solver.
  - destruct (Hl id_) as [[o16 E16]%elem_of_dom [o17 E17]%elem_of_dom];
      [set_solver|].
    rewrite (modified_step_eq acc id_ o16 o17 E16 E17).
    assert (Hl' : ∀ k, k ∈ l → k ∈ dom objects16 ∧ k ∈ dom objects17)
      by (intros k Hk; apply Hl; set_solver).
    destruct (decide (get o16 (py "modified") ≠ get o17 (py "modified")))
      as [Hne|Heq]; simpl;
      [destruct (IH ({[id_]} ∪ acc) Hl') as (M & -> & HM)
      |destruct (IH acc Hl') as (M & -> & HM)];
      exists M; (split; [done|]); intros k; rewrite HM.
    + split.
      * intros [[->%elem_of_singleton|?]%elem_of_union|[? ?]].
        -- right. split; [set_solver|]. by exists o16, o17.
        -- by left.
        -- right. split; [set_solver|done].
      * intros [?|[[->|?]%elem_of_cons ?]]; set_solver.
    + split.
      * intros [?|[? ?]]; [by left|right; split; [set_solver|done]].
      * intros [?|[[->|?]%elem_of_cons Hd]]; [by left| |by right].
        destruct Hd as (a & b & Ha & Hb & Hd). simplify_eq. by destruct Heq.
Qed.

Lemma modified_ids_spec :
  ∃ M, modified_ids objects16 objects17 = Ok M
    ∧ ∀ k, k ∈ M ↔ k ∈ common_ids objects16 objects17
           ∧ marker_differs objects16 objects17 k.
Proof.
  destruct (modified_loop (set_iter (common_ids objects16 objects17)) ∅)
    as (M & E & HM).
  - intros k Hk%elem_of_set_iter.
    unfold common_ids, ids16, ids17 in Hk. set_solver.
  - exists M. split; [exact E|]. intros k. rewrite HM, elem_of_set_iter.
    set_solver.
Qed.

Lemma common_marker_cases (k : pyval) :
  k ∈ common_ids objects16 objects17 →
marker_differs objects16 objects17 k ∨ marker_equal objects16 objects17 k.
Proof.
  unfold common_ids, ids16, ids17.
  intros [[o16 E16]%elem_of_dom [o17 E17]%elem_of_dom]%elem_of_intersection.
  destruct (decide (get o16 (py "modified") = get o17 (py "modified")));
    [right|left]; by exists o16, o17.
Qed.
End modified.

(** C3. The loop over [common_ids] returns a set [modified] with
    [modified ⊆ common]; every identifier in it has unequal [modified]
    markers in the two records (plain inequality of the values), and every
    identifier of [common] outside it has equal markers. *)
Theorem modified_subset_and_markers `{Runtime}
    (objects16 objects17 : gmap pyval obj) :
  ∃ modified, modified_ids objects16 objects17 = Ok modified
    ∧ modified ⊆ common_ids objects16 objects17
    ∧ (∀ k, k ∈ modified → marker_differs objects16 objects17 k)
    ∧ (∀ k, k ∈ common_ids objects16 objects17 ∖ modified →
         marker_equal objects16 objects17 k).
Proof.
  destruct (modified_ids_spec objects16 objects17) as (M & E & HM).
  exists M. split; [exact E|]. repeat split.
  - intros k Hk. by apply HM.
  - intros k Hk. by apply HM.
  - intros k [Hc Hn]%elem_of_difference.
    destruct (common_marker_cases _ _ k Hc) as [Hd|He]; [|exact He].
    exfalso. apply Hn, HM. by split.
Qed.

(** ** Records without a [modified] field *)

(** C5, as stated, fails: a record that lacks [modified] in both snapshots
    is in [common] and is not classified as modified ([None != None] is
    false). *)
Lemma absent_in_both_not_modified :
  let o := record "x" "tool" in
  let objects := index_by_id [o] in
  objects !! PyStr (py "x") = Some o
  ∧ o !! py "modified" = None
  ∧ common_ids objects objects = {[ PyStr (py "x") ]}
  ∧ @modified_ids sorted_runtime objects objects = Ok ∅.
Proof. cbv zeta. repeat apply conj; vm_compute; reflexivity. Qed.

(** C5, amended. For an identifier of [common]: when the [modified] field is
    absent from exactly one of the two records and the other record carries
    a string there, the identifier is classified as modified; when the field
    is absent from both records, it is not. *)
Theorem absent_marker_comparison `{Runtime}
    (objects16 objects17 : gmap pyval obj) (k : pyval) (o16 o17 : obj)
    (modified : gset pyval) :
  modified_ids objects16 objects17 = Ok modified →
  objects16 !! k = Some o16 →
  objects17 !! k = Some o17 →
  ((o16 !! py "modified" = None ∧ ∃ s, o17 !! py "modified" = Some (PyStr s))
   ∨ (o17 !! py "modified" = None ∧ ∃ s, o16 !! py "modified" = Some (PyStr s))
   → k ∈ modified)
  ∧ (o16 !! py "modified" = None → o17 !! py "modified" = None →
     k ∉ modified).
Proof.
  intros E E16 E17.
  destruct (modified_ids_spec objects16 objects17) as (M & E' & HM).
  rewrite E in E'. injection E' as ->.
  assert (Hc : k ∈ common_ids objects16 objects17).
  { unfold common_ids, ids16, ids17.
    apply elem_of_intersection; split; apply elem_of_dom; eauto. }
  split.
  - intros Hone. apply HM. split; [exact Hc|].
    exists o16, o17. repeat split; [done..|]. unfold get.
    destruct Hone as [[-> [s ->]]|[-> [s ->]]]; simpl; congruence.
  - intros A16 A17 [_ (a & b & Ha & Hb & Hd)]%HM. simplify_eq.
    apply Hd. unfold get. by rewrite A16, A17.
Qed.

Lemma absent_marker_comparison_witness :
  let o16 := record "x" "tool" in
  let o17 := stamped "x" "tool" "2024-01-01" in
  PyStr (py "x")
    ∈ ({[ PyStr (py "x") ]} : gset pyval)
  ∧ (o16 !! py "modified" = None → o16 !! py "modified" = None →
     PyStr (py "x") ∉ (∅ : gset pyval)).
Proof.
  intros o16 o17. split.
  - refine (proj1 (@absent_marker_comparison sorted_runtime
      (index_by_id [o16]) (index_by_id [o17]) (PyStr (py "x")) o16 o17
      {[ PyStr (py "x") ]} _ _ _) _).
    + vm_compute. reflexivity.
    + vm_compute. reflexivity.
    + vm_compute. reflexivity.
    + left. split; [vm_compute; reflexivity|].
      exists (py "2024-01-01"). vm_compute. reflexivity.
  - refine (proj2 (@absent_marker_comparison sorted_runtime
      (index_by_id [o16]) (index_by_id [o16]) (PyStr (py "x")) o16 o16
      ∅ _ _ _)).
    + vm_compute. reflexivity.
    + vm_compute. reflexivity.
    + vm_compute. reflexivity.
Defined.

(** ** Grouping by type (Differ) *)

Lemma group_step_eq (objects : gmap pyval obj)
    (by_type : gmap pyval (list obj)) (k : pyval) (o : obj) (t : pyval) :
  objects !! k = Some o → o !! py "type" = Some t →
  group_step objects by_type k
  = Ok (<[t := default [] (by_type !! t) ++ [o]]> by_type).
Proof.
  intros E Et. unfold group_step.
  rewrite (lookup_id_Some _ _ _ E). simpl.
  by rewrite (getitem_Some _ _ _ Et).
Qed.

Lemma group_loop (objects : gmap pyval obj) (l : list pyval)
    (by_type : gmap pyval (list obj)) :
  (∀ k, k ∈ l → ∃ o, objects !! k = Some o ∧ is_Some (o !! py "type")) →
  ∃ g, for_loop (group_step objects) l by_type = Ok g
    ∧ ∀ t, default [] (g !! t)
           = default [] (by_type !! t)
             ++ filter (of_type t) (omap (fun k => objects !! k) l).
Proof.
  revert by_type. induction l as [|k l IH]; intros by_type Hl; simpl.
  - exists by_type. split; [done|]. intros t. by rewrite app_nil_r.
  - destruct (Hl k) as (o & E & [t0 Et]); [set_solver|].
    rewrite (group_step_eq _ _ _ _ _ E Et), E. simpl.
    destruct (IH (<[t0 := default [] (by_type !! t0) ++ [o]]> by_type))
      as (g & -> & Hg); [intros k' Hk'; apply Hl; set_solver|].
    exists g. split; [done|]. intros t. rewrite Hg.
    rewrite filter_cons. destruct (decide (t0 = t)) as [->|Hne].
    + rewrite lookup_insert_eq. simpl.
      rewrite decide_True by exact Et. by rewrite <- app_assoc.
    + rewrite lookup_insert_ne by done.
      rewrite decide_False; [done|]. unfold of_type. congruence.
Qed.

(** The index maps an identifier to a record of the list that carries it. *)
Lemma index_fold_lookup (data : list obj) (m : gmap pyval obj) k o :
  fold_left index_step data m !! k = Some o →
  (o ∈ data ∧ o !! py "id" = Some k) ∨ m !! k = Some o.
Proof.
  revert m. induction data as [|o' data IH]; intros m; simpl; [by right|].
  intros [[? ?]|Hm]%IH; [left; split; [by constructor|done]|].
  unfold index_step in Hm. destruct (o' !! py "id") as [k'|] eqn:E.
  - destruct (decide (k' = k)) as [->|Hne].
    + rewrite lookup_insert_eq in Hm. injection Hm as <-.
      left. split; [constructor|done].
    + rewrite lookup_insert_ne in Hm by done. by right.
  - by right.
Qed.

Lemma index_by_id_lookup (data : list obj) k o :
  index_by_id data !! k = Some o → o ∈ data ∧ o !! py "id" = Some k.
Proof.
  intros [?|Hm]%index_fold_lookup; [done|]. by rewrite lookup_empty in Hm.
Qed.

Lemma index_fold_unique (data : list obj) (m : gmap pyval obj) k o :
  unique_ids data → o ∈ data → o !! py "id" = Some k →
  fold_left index_step data m !! k = Some o.
Proof.
  revert m. induction data as [|o' data IH]; intros m Hu Hin Hk; simpl.
  - by apply elem_of_nil in Hin.
  - unfold unique_ids in Hu. simpl in Hu.
    apply elem_of_cons in Hin as [->|Hin].
    + rewrite Hk in Hu. apply NoDup_cons in Hu as [Hnotin Hu].
      unfold index_step at 2. rewrite Hk.
      destruct (fold_left index_step data (<[k:=o']> m) !! k) as [o''|] eqn:E.
      * apply index_fold_lookup in E as [[Hin' Hk']|E].
        -- exfalso. apply Hnotin. apply list_elem_of_omap. eauto.
        -- by rewrite lookup_insert_eq in E.
      * assert (k ∈ dom (fold_left index_step data (<[k:=o']> m))) as Hd.
        { rewrite dom_index_fold, dom_insert_L. set_solver. }
        apply elem_of_dom in Hd as [? ?]. congruence.
    + apply IH; [|done..].
      destruct (o' !! py "id"); [by apply NoDup_cons in Hu as [_ ?]|done].
Qed.

Lemma NoDup_omap_filter {A B} (f : A → option B) (P : A → Prop)
    `{∀ x, Decision (P x)} (l : list A) :
  (∀ x, P x → is_Some (f x)) → NoDup (omap f l) → NoDup (filter P l).
Proof.
  intros HP. induction l as [|x l IH]; simpl; [constructor|].
  intros Hn. rewrite filter_cons. destruct (decide (P x)) as [Hx|].
  - destruct (HP x Hx) as [y Ey]. rewrite Ey in Hn.
    apply NoDup_cons in Hn as [Hnotin Hn]. apply NoDup_cons. split; [|auto].
    intros [_ Hin]%list_elem_of_filter. apply Hnotin.
    apply list_elem_of_omap. eauto.
  - apply IH. destruct (f x); [by apply NoDup_cons in Hn as [_ ?]|done].
Qed.

Lemma NoDup_omap_inj {A B} (g : A → option B) (l : list A) :
  (∀ x y b, g x = Some b → g y = Some b → x = y) →
  NoDup l → NoDup (omap g l).
Proof.
  intros Hinj. induction 1 as [|x l Hnotin Hn IH]; simpl; [constructor|].
  destruct (g x) as [b|] eqn:E; [|done].
  apply NoDup_cons. split; [|done].
  intros (y & Hy & Ey)%list_elem_of_omap.
  by rewrite (Hinj x y b E Ey) in Hnotin.
Qed.

Section groups.
Context `{Runtime}.

Lemma group_by_type_ok (ids : gset pyval) (data : list obj) :
  ids ⊆ dom (index_by_id data) →
  (∀ o, o ∈ data → is_Some (o !! py "type")) →
  ∃ g, group_by_type ids (index_by_id data) = Ok g
    ∧ ∀ t, default [] (g !! t) = iteration_group ids t (index_by_id data).
Proof.
  intros Hsub Hty.
  destruct (group_loop (index_by_id data) (set_iter ids) ∅) as (g & E & Hg).
  - intros k Hk%elem_of_set_iter%Hsub. apply elem_of_dom in Hk as [o E].
    exists o. split; [done|]. apply Hty.
    by destruct (index_by_id_lookup _ _ _ E).
  - exists g. split; [exact E|]. intros t.
    by rewrite Hg, lookup_empty.
Qed.

Lemma iteration_group_perm (ids : gset pyval) (t : pyval) (data : list obj) :
  unique_ids data →
  iteration_group ids t (index_by_id data) ≡ₚ source_group ids t data.
Proof.
  intros Hu. apply NoDup_Permutation.
  - apply NoDup_filter, NoDup_omap_inj; [|apply NoDup_set_iter].
    intros k1 k2 o [_ E1]%index_by_id_lookup [_ E2]%index_by_id_lookup.
    congruence.
  - apply (NoDup_omap_filter (fun o : obj => o !! py "id")); [|exact Hu].
    intros o [_ (k & -> & _)]. eauto.
  - intros o. unfold iteration_group, source_group.
    rewrite !list_elem_of_filter, list_elem_of_omap. split.
    + intros [Ht (k & Hk%elem_of_set_iter & [Hin Hid]%index_by_id_lookup)].
      repeat split; [done| |done]. by exists k.
    + intros [[Ht (k & Hid & Hk)] Hin]. split; [done|].
      exists k. split; [by apply elem_of_set_iter|].
      by apply index_fold_unique.
Qed.
End groups.

(** C4, as stated, fails: with two added tools listed as [a], [b] in the
    snapshot, a runtime that iterates the set of new identifiers as [b], [a]
    builds the group [b; a]; the group follows the runtime, not the list. *)
Lemma group_not_in_source_order :
  let a := record "a" "tool" in
  let b := record "b" "tool" in
  let data17 := [a; b] in
  let new := new_ids (index_by_id []) (index_by_id data17) in
  source_group new (PyStr (py "tool")) data17 = [a; b]
  ∧ @group_by_type sorted_runtime new (index_by_id data17)
    = Ok {[ PyStr (py "tool") := [b; a] ]}
  ∧ @group_by_type reversed_runtime new (index_by_id data17)
    = Ok {[ PyStr (py "tool") := [a; b] ]}.
Proof. cbv zeta. repeat apply conj; vm_compute; reflexivity. Qed.

(** C4, amended. When every record has a [type], both groupings are built
    without error, and each type group lists its records in the order in
    which the set of added (removed) identifiers is iterated; for a snapshot
    whose identifiers are unique that is a permutation of the added
    (removed) records of the type in source order. *)
Theorem groups_follow_set_iteration `{Runtime} (data16 data17 : list obj) :
  Forall (fun o : obj => is_Some (o !! py "type")) (data16 ++ data17) →
  let objects16 := index_by_id data16 in
  let objects17 := index_by_id data17 in
  let new := new_ids objects16 objects17 in
  let removed := removed_ids objects16 objects17 in
  ∃ new_by_type removed_by_type,
    group_by_type new objects17 = Ok new_by_type
    ∧ group_by_type removed objects16 = Ok removed_by_type
    ∧ ∀ t,
        default [] (new_by_type !! t) = iteration_group new t objects17
        ∧ default [] (removed_by_type !! t)
          = iteration_group removed t objects16
        ∧ (unique_ids data17 →
           default [] (new_by_type !! t) ≡ₚ source_group new t data17)
        ∧ (unique_ids data16 →
           default [] (removed_by_type !! t)
           ≡ₚ source_group removed t data16).
Proof.
  intros [H16 H17]%Forall_app objects16 objects17 new removed.
  rewrite Forall_forall in H16, H17.
  destruct (group_by_type_ok new data17) as (gn & En & Hn);
    [subst new; unfold new_ids, ids17; set_solver|done|].
  destruct (group_by_type_ok removed data16) as (gr & Er & Hr);
    [subst removed; unfold removed_ids, ids16; set_solver|done|].
  exists gn, gr. repeat split; [done..| |].
  - intros Hu. rewrite Hn. by apply iteration_group_perm.
  - intros Hu. rewrite Hr. by apply iteration_group_perm.
Qed.

Lemma groups_follow_set_iteration_witness :
  let a := record "a" "tool" in
  let b := record "b" "tool" in
  let c := record "c" "malware" in
  let data16 := [c; a] in
  let data17 := [a; b] in
  Forall (fun o : obj => is_Some (o !! py "type")) (data16 ++ data17)
  ∧ ∃ new_by_type removed_by_type,
      @group_by_type sorted_runtime
        (new_ids (index_by_id data16) (index_by_id data17))
        (index_by_id data17) = Ok new_by_type
      ∧ @group_by_type sorted_runtime
          (removed_ids (index_by_id data16) (index_by_id data17))
          (index_by_id data16) = Ok removed_by_type
      ∧ ∀ t,
          default [] (new_by_type !! t)
          = @iteration_group sorted_runtime
              (new_ids (index_by_id data16) (index_by_id data17)) t
              (index_by_id data17)
          ∧ default [] (removed_by_type !! t)
            = @iteration_group sorted_runtime
                (removed_ids (index_by_id data16) (index_by_id data17)) t
                (index_by_id data16)
          ∧ (unique_ids data17 →
             default [] (new_by_type !! t)
             ≡ₚ source_group
                  (new_ids (index_by_id data16) (index_by_id data17)) t data17)
          ∧ (unique_ids data16 →
             default [] (removed_by_type !! t)
             ≡ₚ source_group
                  (removed_ids (index_by_id data16) (index_by_id data17)) t
                  data16).
Proof.
  intros a b c data16 data17.
  assert (Hty : Forall (fun o : obj => is_Some (o !! py "type"))
                  (data16 ++ data17)).
  { apply (bool_decide_unpack _). vm_compute. exact I. }
  split; [exact Hty|].
  exact (@groups_follow_set_iteration sorted_runtime data16 data17 Hty).
Defined.

(** ** [clean_text] *)

Lemma str_replace_app (old : N) (new a b : list N) :
  str_replace old new (a ++ b) = str_replace old new a ++ str_replace old new b.
Proof. unfold str_replace. apply flat_map_app. Qed.

Lemma clean_loop_app (table : list (N * list N)) (a b : list N) :
  clean_loop table (a ++ b) = clean_loop table a ++ clean_loop table b.
Proof.
  revert a b. induction table as [|[old new] table IH]; intros a b; simpl.
  - reflexivity.
  - unfold clean_loop in *. simpl. by rewrite str_replace_app, IH.
Qed.

Lemma clean_loop_nil (table : list (N * list N)) : clean_loop table [] = [].
Proof. induction table as [|[old new] table IH]; [done|exact IH]. Qed.

(** The loop works character by character. *)
Lemma clean_loop_flat_map (table : list (N * list N)) (f : N → list N)
    (s : list N) :
  clean_loop table (flat_map f s) = flat_map (fun c => clean_loop table (f c)) s.
Proof.
  induction s as [|c s IH]; simpl.
  - apply clean_loop_nil.
  - by rewrite clean_loop_app, IH.
Qed.

Lemma clean_loop_chars (table : list (N * list N)) (s : list N) :
  clean_loop table s = flat_map (fun c => clean_loop table [c]) s.
Proof.
  rewrite <- (clean_loop_flat_map table (fun c => [c]) s).
  f_equal. induction s as [|c s IH]; simpl; congruence.
Qed.

(** A character that is no key of the table is left alone. *)
Lemma clean_loop_other (table : list (N * list N)) (c : N) :
  c ∉ table.*1 → clean_loop table [c] = [c].
Proof.
  induction table as [|[old new] table IH]; intros Hc; [done|].
  unfold clean_loop. simpl.
  destruct (N.eqb_spec c old) as [->|_]; [set_solver|].
  apply IH. set_solver.
Qed.

Lemma clean_char_idempotent (c : N) :
  clean_loop replacements (clean_loop replacements [c])
  = clean_loop replacements [c].
Proof.
  destruct (decide (c ∈ replacements.*1)) as [Hin|Hout].
  - (let l := eval vm_compute in (fst <$> replacements) in change (fst <$> replacements) with l in Hin).
    repeat (apply elem_of_cons in Hin as [->|Hin]; [vm_compute; reflexivity|]).
    by apply elem_of_nil in Hin.
  - by rewrite !clean_loop_other.
Qed.
Lemma clean_loop_idempotent (s : list N) :
  clean_loop replacements (clean_loop replacements s)
  = clean_loop replacements s.
Proof.
  generalize clean_char_idempotent.
  generalize replacements as table. intros table Hchar.
  rewrite (clean_loop_chars table s) at 1.
  rewrite clean_loop_flat_map, (clean_loop_chars table s).
  induction s as [|c s IH]; [done|].
  cbn [flat_map]. by rewrite Hchar, IH.
Qed.

(** C8. [clean_text] is idempotent: applying it twice yields the same
    result as applying it once, for every input. *)
Theorem clean_text_idempotent (text : pyval) :
  clean_text (clean_text text) = clean_text text.
Proof.
  destruct text as [|[|c s]]; [done..|].
  change (clean_text (PyStr (c :: s)))
    with (PyStr (clean_loop replacements (c :: s))).
  pose proof (clean_loop_idempotent (c :: s)) as Hidem.
  revert Hidem. generalize (clean_loop replacements (c :: s)) as t.
  intros [|d t] Hidem; [done|].
  change (clean_text (PyStr (d :: t)))
    with (PyStr (clean_loop replacements (d :: t))).
  by rewrite Hidem.
Qed.

(** ** Matching a greedy [+] *)

(** Every text splits into its longest prefix in the class and the rest. *)
Lemma span_exists (p : N → bool) (text : list N) :
  ∃ run rest, text = run ++ rest ∧ all_of p run ∧ stops p rest.
Proof.
  induction text as [|c text (run & rest & -> & Hrun & Hrest)].
  - exists [], []. unfold all_of. by repeat split.
  - destruct (p c) eqn:E.
    + exists (c :: run), rest. repeat split; [by apply Forall_cons|done].
    + exists [], (c :: run ++ rest). unfold all_of. by repeat split.
Qed.

Lemma span_unique (p : N → bool) (run run' rest rest' : list N) :
  run ++ rest = run' ++ rest' →
  all_of p run → all_of p run' → stops p rest → stops p rest' →
  run = run' ∧ rest = rest'.
Proof.
  revert run'. induction run as [|c run IH]; intros [|c' run'] E H1 H2 S1 S2;
    simpl in E.
  - done.
  - subst rest. apply Forall_cons in H2 as [? _]. simpl in S1. congruence.
  - subst rest'. apply Forall_cons in H1 as [? _]. simpl in S2. congruence.
  - injection E as <- E. apply Forall_cons in H1 as [_ H1].
    apply Forall_cons in H2 as [_ H2].
    destruct (IH run' E H1 H2 S1 S2) as [-> ->]. done.
Qed.

Lemma plus_more_stops (p : N → bool) (k : list N → matched)
    (taken text : list N) :
  stops p text → plus_more p k taken text = None.
Proof. destruct text as [|c text]; simpl; [done|]. by intros ->. Qed.

(** The longest run wins when the continuation accepts what follows it. *)
Lemma plus_more_run (p : N → bool) (k : list N → matched)
    (taken run rest : list N) (ps : list (list N)) (rest' : list N) :
  run ≠ [] → all_of p run → stops p rest → k rest = Some (ps, rest') →
  plus_more p k taken (run ++ rest) = Some ((taken ++ run) :: ps, rest').
Proof.
  intros Hne Hrun Hrest Hk. revert taken.
  induction run as [|c run IH]; intros taken; [done|].
  apply Forall_cons in Hrun as [Hc Hrun]. simpl. rewrite Hc.
  destruct run as [|c' run].
  - simpl. rewrite (plus_more_stops _ _ _ _ Hrest), Hk. done.
  - rewrite (IH ltac:(done) Hrun (taken ++ [c])).
    by rewrite <- app_assoc.
Qed.

(** No run is accepted when the continuation rejects what follows the
    longest one, and rejects every text that starts in the class. *)
Lemma plus_more_none (p : N → bool) (k : list N → matched)
    (taken run rest : list N) :
  all_of p run → stops p rest →
  (∀ c t, p c = true → k (c :: t) = None) → k rest = None →
  plus_more p k taken (run ++ rest) = None.
Proof.
  intros Hrun Hrest Hk Hnone. revert taken.
  induction run as [|c run IH]; intros taken.
  - by apply plus_more_stops.
  - apply Forall_cons in Hrun as [Hc Hrun]. simpl. rewrite Hc, (IH Hrun).
    destruct run as [|c' run]; simpl.
    + by rewrite Hnone.
    + apply Forall_cons in Hrun as [Hc' _]. by rewrite (Hk c' _ Hc').
Qed.

(** ** [re.search] *)

Lemma re_search_spec (r : list item) (text : list N) :
  match re_search r text with
  | Some ps =>
      ∃ pre t rest, text = pre ++ t ∧ match_here r t = Some (ps, rest)
        ∧ ∀ pre1 t1, text = pre1 ++ t1 → (length pre1 < length pre)%nat →
            match_here r t1 = None
  | None => ∀ pre1 t1, text = pre1 ++ t1 → match_here r t1 = None
  end.
Proof.
  induction text as [|c text IH].
  - simpl. destruct (match_here r []) as [[ps rest]|] eqn:E.
    + exists [], [], rest. repeat split; [done|]. simpl. lia.
    + intros pre1 t1 [-> ->]%eq_sym%app_eq_nil. exact E.
  - cbn [re_search]. destruct (match_here r (c :: text)) as [[ps rest]|] eqn:E.
    + exists [], (c :: text), rest. repeat split; [done|]. simpl. lia.
    + destruct (re_search r text) as [ps|].
      * destruct IH as (pre & t & rest & -> & Hm & Hfirst).
        exists (c :: pre), t, rest. repeat split; [done|].
        intros [|c1 pre1] t1 E1 Hlen; simpl in E1.
        -- by subst t1.
        -- injection E1 as <- E1. apply (Hfirst pre1 t1 E1). simpl in Hlen. lia.
      * intros [|c1 pre1] t1 E1; simpl in E1.
        -- by subst t1.
        -- injection E1 as <- E1. by apply (IH pre1).
Qed.

(** ** [extract_version] *)

Section version.
Context `{Runtime}.

Lemma isdigit_not_dot (c : N) : isdigit c = true → is_char 46 c = false.
Proof.
  unfold isdigit, is_char. destruct (N.eqb_spec c 46) as [->|]; [|done].
  by vm_compute.
Qed.

Lemma dot_rest_rejects_digit (c : N) (t : list N) :
  isdigit c = true →
  match_here [One (is_char 46); Plus isdigit] (c :: t) = None.
Proof. intros Hc. simpl. by rewrite (isdigit_not_dot c Hc). Qed.

Lemma stops_dot (t : list N) : stops isdigit (46 :: t).
Proof. by vm_compute. Qed.

Lemma nonempty_run_head (d rest : list N) :
  d ≠ [] → all_of isdigit d → ¬ stops isdigit (d ++ rest).
Proof.
  destruct d as [|c d]; [done|]. intros _ [Hc _]%Forall_cons. simpl.
  congruence.
Qed.

(** What the pattern does at one position: it matches the longest digits,
    full stop, longest digits; or no dotted pair begins there. *)
Lemma version_match_cases (t : list N) :
  (∃ d1 d2 rest, t = d1 ++ [46] ++ d2 ++ rest
     ∧ d1 ≠ [] ∧ d2 ≠ [] ∧ all_of isdigit d1 ∧ all_of isdigit d2
     ∧ stops isdigit rest
     ∧ match_here version_re t = Some ([d1; [46]; d2], rest))
  ∨ (match_here version_re t = None ∧ ¬ starts_with_pair t).
Proof.
  destruct (span_exists isdigit t) as (run1 & rest1 & -> & Hrun1 & Hrest1).
  assert (Hsplit : ∀ d1 d2 rest,
    run1 ++ rest1 = (d1 ++ [46] ++ d2) ++ rest → all_of isdigit d1 →
    d1 = run1 ∧ rest1 = 46 :: d2 ++ rest).
  { intros d1 d2 rest E Hd1. rewrite <- !app_assoc in E. simpl in E.
    destruct (span_unique isdigit run1 d1 rest1 (46 :: d2 ++ rest) E)
      as [-> ->]; [done|done|done|apply stops_dot|done]. }
  unfold version_re. cbn [match_here].
  destruct (decide (run1 = [])) as [->|Hne1].
  { right. split; [by apply plus_more_stops|].
    intros (m & rest & E & d1 & d2 & -> & Hd1 & Hd2 & Ha1 & Ha2).
    destruct (Hsplit d1 d2 rest E Ha1) as [-> _]. done. }
  destruct rest1 as [|c t2].
  { right. split.
    - apply plus_more_none; [done|done|apply dot_rest_rejects_digit|done].
    - intros (m & rest & E & d1 & d2 & -> & Hd1 & Hd2 & Ha1 & Ha2).
      by destruct (Hsplit d1 d2 rest E Ha1) as [_ ?]. }
  destruct (decide (c = 46)) as [->|Hc].
  2:{ right. split.
    - apply plus_more_none; [done|done|apply dot_rest_rejects_digit|].
      simpl. unfold is_char. by destruct (N.eqb_spec c 46).
    - intros (m & rest & E & d1 & d2 & -> & Hd1 & Hd2 & Ha1 & Ha2).
      destruct (Hsplit d1 d2 rest E Ha1) as [_ ?]. congruence. }
  destruct (span_exists isdigit t2) as (run2 & rest2 & -> & Hrun2 & Hrest2).
  destruct (decide (run2 = [])) as [->|Hne2].
  { right. split.
    - apply plus_more_none; [done|done|apply dot_rest_rejects_digit|].
      simpl. by rewrite plus_more_stops.
    - intros (m & rest & E & d1 & d2 & -> & Hd1 & Hd2 & Ha1 & Ha2).
      destruct (Hsplit d1 d2 rest E Ha1) as [_ [= E2]].
      simpl in E2. rewrite E2 in Hrest2.
      by apply (nonempty_run_head d2 rest). }
  left. exists run1, run2, rest2. repeat split; [done..|].
  apply (plus_more_run isdigit _ [] run1); [done..|].
  simpl. by rewrite (plus_more_run isdigit _ [] run2 rest2 [] rest2).
Qed.

Lemma version_match_none (t : list N) :
  match_here version_re t = None → ¬ starts_with_pair t.
Proof.
  destruct (version_match_cases t) as [(? & ? & ? & _ & _ & _ & _ & _ & _ & E)|[_ ?]];
    [congruence|done].
Qed.
End version.

(** C9. [extract_version] returns the first dotted pair of digits of the
    name (the leftmost position where one begins, digits taken as far as
    they go), and ["unknown"] when no dotted pair begins anywhere. For
    ["enterprise-attack-16.1.json"] and ["enterprise-attack-17.0.json"] the
    labels are ["16.1"] and ["17.0"], and the report file name holds each of
    them exactly once. *)
Theorem extract_version_first_dotted_pair `{Runtime} (filename : list N) :
  ((∃ pre m post, filename = pre ++ m ++ post
      ∧ dotted_pair m ∧ stops isdigit post
      ∧ (∀ pre1 t1, filename = pre1 ++ t1 → (length pre1 < length pre)%nat →
           ¬ starts_with_pair t1)
      ∧ extract_version filename = m)
   ∨ ((∀ pre1 t1, filename = pre1 ++ t1 → ¬ starts_with_pair t1)
      ∧ extract_version filename = py "unknown"))
  ∧ extract_version (py "enterprise-attack-16.1.json") = py "16.1"
  ∧ extract_version (py "enterprise-attack-17.0.json") = py "17.0"
  ∧ (let name :=
       output_filename (extract_version (py "enterprise-attack-16.1.json"))
         (extract_version (py "enterprise-attack-17.0.json")) in
     name = py "mitre_attack_changes_16.1_to_17.0.md"
     ∧ occurrences (py "16.1") name = 1%nat
     ∧ occurrences (py "17.0") name = 1%nat).
Proof.
  split; [|by vm_compute].
  unfold extract_version.
  pose proof (re_search_spec version_re filename) as Hs.
  destruct (re_search version_re filename) as [ps|].
  - left. destruct Hs as (pre & t & rest & -> & Hm & Hfirst).
    destruct (version_match_cases t)
      as [(d1 & d2 & post & -> & Hd1 & Hd2 & Ha1 & Ha2 & Hpost & Hm')|[Hn _]];
      [|congruence].
    rewrite Hm' in Hm. injection Hm as <- <-.
    exists pre, (d1 ++ [46] ++ d2), post. repeat split.
    + by rewrite <- !app_assoc.
    + by exists d1, d2.
    + exact Hpost.
    + intros pre1 t1 E Hlen. apply version_match_none.
      by apply (Hfirst pre1).
    + simpl. by rewrite app_nil_r.
  - right. split; [|done].
    intros pre1 t1 E. apply version_match_none. by apply (Hs pre1).
Qed.

(** ** [re.sub] on links *)

Lemma re_sub_go_skip (r : list item) (repl : list (list N) → list N)
    (a b : list N) :
  re_sub_go r repl (length a) (a ++ b) = re_sub_go r repl 0 b.
Proof.
  induction a as [|c a IH]; simpl; [by destruct b|exact IH].
Qed.

(** No link begins at a character other than the opening bracket. *)
Lemma re_sub_link_prefix (repl : list (list N) → list N) (pre t : list N) :
  91 ∉ pre →
  re_sub_go link_re repl 0 (pre ++ t) = pre ++ re_sub_go link_re repl 0 t.
Proof.
  induction pre as [|c pre IH]; intros Hpre; [done|].
  cbn [app re_sub_go link_re match_here]. unfold is_char at 1.
  destruct (N.eqb_spec c 91) as [->|_]; [set_solver|].
  rewrite IH; [done|set_solver].
Qed.

Lemma all_of_not_char (a : N) (s : list N) : a ∉ s → all_of (not_char a) s.
Proof.
  intros Hs. apply Forall_forall. intros c Hc. unfold not_char.
  destruct (N.eqb_spec c a) as [->|]; done.
Qed.

Lemma stops_not_char (a : N) (t : list N) : stops (not_char a) (a :: t).
Proof. simpl. unfold not_char. by rewrite N.eqb_refl. Qed.

(** The pattern matches a whole link, text and target taken whole. *)
Lemma link_match (txt url post : list N) :
  txt ≠ [] → 93 ∉ txt → url ≠ [] → 41 ∉ url →
  match_here link_re (91 :: txt ++ 93 :: 40 :: url ++ 41 :: post)
  = Some ([[91]; txt; [93]; [40]; url; [41]], post).
Proof.
  intros Ht Ht' Hu Hu'. cbn [link_re match_here]. change (is_char 91 91) with true.
  cbv iota.
  rewrite (plus_more_run (not_char 93) _ [] txt (93 :: 40 :: url ++ 41 :: post)
             [[93]; [40]; url; [41]] post);
    [done|done|by apply all_of_not_char|apply stops_not_char|].
  change (is_char 93 93) with true. change (is_char 40 40) with true. cbv iota.
  rewrite (plus_more_run (not_char 41) _ [] url (41 :: post) [[41%N]] post);
    [done|done|by apply all_of_not_char|apply stops_not_char|done].
Qed.

Lemma re_sub_link (pre txt url post : list N) :
  91 ∉ pre → txt ≠ [] → 93 ∉ txt → url ≠ [] → 41 ∉ url →
  re_sub link_re link_group1
    (pre ++ [91] ++ txt ++ [93; 40] ++ url ++ [41] ++ post)
  = pre ++ txt ++ re_sub link_re link_group1 post.
Proof.
  intros Hpre Ht Ht' Hu Hu'. unfold re_sub.
  rewrite (re_sub_link_prefix _ _ _ Hpre). f_equal.
  cbn [app re_sub_go]. rewrite (link_match txt url post Ht Ht' Hu Hu').
  cbn [link_group1 lookup list_lookup default from_option id]. f_equal.
  replace (length (concat [[91%N]; txt; [93%N]; [40%N]; url; [41%N]]) - 1)%nat
    with (length (txt ++ 93%N :: 40%N :: url ++ [41%N])).
  - rewrite <- (re_sub_go_skip _ _ (txt ++ 93 :: 40 :: url ++ [41]) post).
    f_equal. rewrite <- !app_assoc. simpl. by rewrite <- app_assoc.
  - simpl. rewrite !length_app. simpl. rewrite !length_app. simpl. lia.
Qed.

(** ** [split] and [join] *)

Lemma split_go_spaces (ws rest : list N) :
  all_of isspace ws → split_go None (ws ++ rest) = split_go None rest.
Proof.
  induction 1 as [|c ws Hc _ IH]; [done|]. simpl. by rewrite Hc.
Qed.

Lemma split_go_word (acc w rest : list N) :
  all_of nonspace w →
  split_go (Some acc) (w ++ rest) = split_go (Some (acc ++ w)) rest.
Proof.
  intros Hw. revert acc. induction Hw as [|c w Hc _ IH]; intros acc.
  - by rewrite app_nil_r.
  - simpl. unfold nonspace in Hc. apply negb_true_iff in Hc. rewrite Hc.
    simpl. rewrite IH. by rewrite <- app_assoc.
Qed.

Lemma split_go_end (acc rest : list N) :
  stops nonspace rest → split_go (Some acc) rest = acc :: split_go None rest.
Proof.
  destruct rest as [|c rest]; [done|]. simpl. unfold nonspace.
  intros Hc%negb_false_iff. by rewrite Hc.
Qed.

Lemma str_split_word (w rest : list N) :
  w ≠ [] → all_of nonspace w → stops nonspace rest →
  str_split (w ++ rest) = w :: str_split rest.
Proof.
  intros Hne Hw Hrest. unfold str_split. destruct w as [|c w]; [done|].
  apply Forall_cons in Hw as [Hc Hw]. simpl.
  unfold nonspace in Hc. apply negb_true_iff in Hc. rewrite Hc. simpl.
  by rewrite (split_go_word [c] w rest Hw), split_go_end.
Qed.

Lemma str_split_nonempty (c : N) (rest : list N) :
  nonspace c = true → str_split (c :: rest) ≠ [].
Proof.
  intros Hc. destruct (span_exists nonspace rest) as (w & r & -> & Hw & Hr).
  change (c :: w ++ r) with ((c :: w) ++ r).
  rewrite (str_split_word (c :: w) r); [done|done| |done].
  by apply Forall_cons.
Qed.

Lemma stops_of_spaces (ws rest : list N) :
  ws ≠ [] → all_of isspace ws → stops nonspace (ws ++ rest).
Proof.
  destruct ws as [|c ws]; [done|]. intros _ [Hc _]%Forall_cons. simpl.
  unfold nonspace. by rewrite Hc.
Qed.

(** Leading white space is dropped. *)
Lemma collapse_leading (ws rest : list N) :
  all_of isspace ws → collapse_spaces (ws ++ rest) = collapse_spaces rest.
Proof.
  intros Hws. unfold collapse_spaces, str_split. by rewrite split_go_spaces.
Qed.

(** Trailing white space is dropped. *)
Lemma collapse_trailing (w ws : list N) :
  w ≠ [] → all_of nonspace w → all_of isspace ws →
  collapse_spaces (w ++ ws) = w.
Proof.
  intros Hne Hw Hws. unfold collapse_spaces.
  rewrite str_split_word; [|done|done|].
  - unfold str_split. rewrite <- (app_nil_r ws), split_go_spaces by done. done.
  - destruct ws as [|c ws]; [done|]. by apply (stops_of_spaces (c :: ws) []).
Qed.

(** A run of white space between two words becomes one space. *)
Lemma collapse_between (w ws rest : list N) (c : N) :
  w ≠ [] → all_of nonspace w → ws ≠ [] → all_of isspace ws →
  nonspace c = true →
  collapse_spaces (w ++ ws ++ c :: rest)
  = w ++ py " " ++ collapse_spaces (c :: rest).
Proof.
  intros Hne Hw Hne' Hws Hc. unfold collapse_spaces.
  rewrite str_split_word; [|done|done|by apply stops_of_spaces].
  unfold str_split at 1. rewrite split_go_spaces by done.
  fold (str_split (c :: rest)).
  pose proof (str_split_nonempty c rest Hc) as Hwords.
  by destruct (str_split (c :: rest)).
Qed.

(** ** Description cleaning in the listings *)

Lemma str_replace_newline (s : list N) :
  str_replace 10 (py " ") s = (fun c => if c =? 10 then 32 else c) <$> s.
Proof.
  induction s as [|c s IH]; [done|]. unfold str_replace in *. simpl.
  rewrite IH. by destruct (c =? 10).
Qed.

Lemma emits_compute (r : result (list (list N))) (line : list N) :
  match r with
  | Ok output => bool_decide (line ∈ output)
  | Raise _ => false
  end = true →
  emits r line.
Proof.
  destruct r as [output|]; [|done]. intros Hb%bool_decide_eq_true.
  by exists output.
Qed.

(** C7. In the blocks of the four categories after the techniques the
    description goes through [clean_text], then every newline becomes a
    space, every inline link [[text](url)] is rewritten to [text], and white
    space is collapsed: leading and trailing runs go, a run between two
    words becomes one space. The technique block does the same without the
    link rewrite. ["See [here](http://x) for more"] comes out as
    ["See here for more"] in the four categories and unchanged in the
    technique block. *)
Theorem description_cleaning :
  (∀ (o : gmap (list N) pyval) (fallback s : list N),
     o !! py "description" = Some (PyStr s) → s ≠ [] →
     describe true fallback o
     = collapse_spaces (re_sub link_re link_group1
         (str_replace 10 (py " ") (clean_loop replacements s)))
     ∧ describe false fallback o
       = collapse_spaces (str_replace 10 (py " ") (clean_loop replacements s)))
  ∧ (∀ s, str_replace 10 (py " ") s
          = (fun c => if c =? 10 then 32 else c) <$> s)
  ∧ (∀ pre txt url post,
       91 ∉ pre → txt ≠ [] → 93 ∉ txt → url ≠ [] → 41 ∉ url →
       re_sub link_re link_group1
         (pre ++ [91] ++ txt ++ [93; 40] ++ url ++ [41] ++ post)
       = pre ++ txt ++ re_sub link_re link_group1 post)
  ∧ (∀ ws rest, all_of isspace ws →
       collapse_spaces (ws ++ rest) = collapse_spaces rest)
  ∧ (∀ w ws, w ≠ [] → all_of nonspace w → all_of isspace ws →
       collapse_spaces (w ++ ws) = w)
  ∧ (∀ w ws rest c,
       w ≠ [] → all_of nonspace w → ws ≠ [] → all_of isspace ws →
       nonspace c = true →
       collapse_spaces (w ++ ws ++ c :: rest)
       = w ++ py " " ++ collapse_spaces (c :: rest))
  ∧ describe true [] (added_sample "malware") = py "See here for more"
  ∧ describe false [] (added_sample "attack-pattern") = link_sample
  ∧ Forall (fun type =>
       emits (sample_report type) (py "1. **N/A** - See here for more"))
      ["intrusion-set"; "malware"; "tool"; "campaign"]%string
  ∧ emits (sample_report "attack-pattern")
      (py "1. **N/A** - See [here](http://x) for more").
Proof.
  split.
  { intros o fallback s Hd Hs. unfold describe. rewrite Hd.
    destruct s as [|c s]; [done|]. done. }
  split; [exact str_replace_newline|].
  split; [exact re_sub_link|].
  split; [exact collapse_leading|].
  split; [exact collapse_trailing|].
  split; [exact collapse_between|].
  split; [by vm_compute|].
  split; [by vm_compute|].
  split.
  - repeat apply Forall_cons_2; [..|apply Forall_nil_2];
      apply emits_compute; vm_compute; reflexivity.
  - apply emits_compute; vm_compute; reflexivity.
Qed.

Lemma description_cleaning_witness :
  re_sub link_re link_group1
    (py "See " ++ [91] ++ py "here" ++ [93; 40] ++ py "http://x" ++ [41]
     ++ py " for more")
  = py "See " ++ py "here" ++ re_sub link_re link_group1 (py " for more")
  ∧ collapse_spaces (py "  " ++ py "for") = collapse_spaces (py "for")
  ∧ collapse_spaces (py "See" ++ py "   ") = py "See"
  ∧ collapse_spaces (py "See" ++ py "    " ++ 104 :: py "ere")
    = py "See" ++ py " " ++ collapse_spaces (104 :: py "ere").
Proof.
  destruct description_cleaning
    as (_ & _ & Hlink & Hlead & Htrail & Hbetween & _).
  assert (Hall : ∀ (p : N → bool) (l : list N),
            forallb p l = true → all_of p l).
  { intros p l Hl. apply Forall_forall. intros c Hc%list_elem_of_In.
    by apply (proj1 (forallb_forall p l) Hl). }
  split; [|split; [|split]].
  - apply Hlink.
    + apply (bool_decide_unpack _). by vm_compute.
    + by vm_compute.
    + apply (bool_decide_unpack _). by vm_compute.
    + by vm_compute.
    + apply (bool_decide_unpack _). by vm_compute.
  - apply Hlead. apply Hall. by vm_compute.
  - apply Htrail; [by vm_compute|..]; apply Hall; by vm_compute.
  - apply Hbetween;
      [by vm_compute|apply Hall; by vm_compute|by vm_compute
      |apply Hall; by vm_compute|by vm_compute].
Defined.

(** ** Command line *)

(** C6, as stated, fails: the exit status for a missing path is the exit
    status for a wrong argument count; both are 1. *)
Lemma exit_statuses_coincide :
  let wrong_count := @main sorted_runtime no_files [py "prog"; py "a.json"] in
  let missing_path :=
    @main sorted_runtime no_files [py "prog"; py "a.json"; py "b.json"] in
  snd wrong_count = Exit 1
  ∧ snd missing_path = Exit 1
  ∧ status (snd wrong_count) = status (snd missing_path).
Proof. by vm_compute. Qed.

(** C6, amended. With an argument count other than two the program prints
    the usage and exits with status 1; with two arguments of which one names
    no existing path it prints one error line naming the first such path and
    exits, nothing read and nothing written, with status 1 as well. *)
Theorem main_exit_statuses `{Runtime} (fs : list N → file_state)
    (argv : list (list N)) :
  (length argv ≠ 3%nat →
   main fs argv = ({| printed := usage; written := [] |}, Exit 1))
  ∧ (∀ prog file1 file2, argv = [prog; file1; file2] →
       path_exists fs file1 = false ∨ path_exists fs file2 = false →
       main fs argv
       = ({| printed := [not_found (if path_exists fs file1 then file2
                                    else file1)];
             written := [] |}, Exit 1))
  ∧ status (Exit 1) ≠ 0%Z.
Proof.
  repeat split.
  - intros Hlen. by destruct argv as [|? [|? [|? [|? ?]]]].
  - intros prog file1 file2 -> Hmissing. unfold main.
    destruct (path_exists fs file1); [|done].
    destruct Hmissing as [?| ->]; done.
  - done.
Qed.

Lemma main_exit_statuses_witness :
  @main sorted_runtime no_files [py "prog"]
  = ({| printed := usage; written := [] |}, Exit 1)
  ∧ @main sorted_runtime no_files [py "prog"; py "a.json"; py "b.json"]
    = ({| printed := [not_found (py "a.json")]; written := [] |}, Exit 1).
Proof.
  split.
  - apply (proj1 (@main_exit_statuses sorted_runtime no_files [py "prog"])).
    simpl. lia.
  - apply (proj1 (proj2 (@main_exit_statuses sorted_runtime no_files
             [py "prog"; py "a.json"; py "b.json"]))
             (py "prog") (py "a.json") (py "b.json")).
    + reflexivity.
    + left. reflexivity.
Defined.

(** ** Runs that raise *)

Lemma bind_Ok {A B} (a : A) (f : A → result B) : Ok a ≫= f = f a.
Proof. reflexivity. Qed.

Lemma count_step_Some (types : gmap pyval Z) (o : gmap (list N) pyval)
    (t : pyval) :
  o !! py "type" = Some t →
  count_step types o = Ok (<[t := (default 0 (types !! t) + 1)%Z]> types).
Proof. intros Ht. unfold count_step. by rewrite (getitem_Some _ _ _ Ht). Qed.

Lemma count_step_None (types : gmap pyval Z) (o : gmap (list N) pyval) :
  o !! py "type" = None →
  count_step types o = Raise (KeyError (PyStr (py "type"))).
Proof. intros Ht. unfold count_step. by rewrite (getitem_None _ _ Ht). Qed.

Lemma count_loop_ok (data : list (gmap (list N) pyval)) (acc : gmap pyval Z) :
  Forall has_type data → ∃ types, for_loop count_step data acc = Ok types.
Proof.
  intros Hty. revert acc. induction Hty as [|o data [t Ht] _ IH]; intros acc.
  - by exists acc.
  - cbn [for_loop]. rewrite (count_step_Some _ _ _ Ht), bind_Ok. apply IH.
Qed.

Lemma count_loop_raise (data : list (gmap (list N) pyval))
    (acc : gmap pyval Z) :
  Exists lacks_type data →
  for_loop count_step data acc = Raise (KeyError (PyStr (py "type"))).
Proof.
  revert acc. induction data as [|o data IH]; intros acc Hex.
  - by apply Exists_nil in Hex.
  - cbn [for_loop]. destruct (o !! py "type") as [t|] eqn:Ht.
    + rewrite (count_step_Some _ _ _ Ht), bind_Ok. apply IH.
      apply Exists_cons in Hex as [Ho|?]; [|done].
      unfold lacks_type in Ho. congruence.
    + by rewrite (count_step_None _ _ Ht).
Qed.

Lemma typed_or_not (data : list (gmap (list N) pyval)) :
  Forall has_type data ∨ Exists lacks_type data.
Proof.
  induction data as [|o data [IH|IH]].
  - left. constructor.
  - destruct (o !! py "type") as [t|] eqn:Ht.
    + left. constructor; [by exists t|done].
    + right. by constructor.
  - right. by constructor.
Qed.

Section runs.
Context `{Runtime}.
Variables (version1 version2 : list N).

Lemma build_output_untyped (data16 data17 : list (gmap (list N) pyval)) :
  Exists lacks_type (data16 ++ data17) →
  build_output version1 version2 data16 data17
  = Raise (KeyError (PyStr (py "type"))).
Proof.
  intros Hex. unfold build_output, count_types. cbv zeta.
  destruct (typed_or_not data16) as [Hty|Hex16].
  - destruct (count_loop_ok data16 ∅ Hty) as [types16 ->].
    rewrite bind_Ok. apply Exists_app in Hex as [Hex|Hex].
    + exfalso. apply Exists_exists in Hex as (o & Ho & Hl).
      rewrite Forall_forall in Hty. destruct (Hty o Ho) as [t Ht].
      unfold lacks_type in Hl. congruence.
    + by rewrite (count_loop_raise data17 ∅ Hex).
  - by rewrite (count_loop_raise data16 ∅ Hex16).
Qed.

Lemma groupings_ok (data16 data17 : list (gmap (list N) pyval)) :
  Forall has_type (data16 ++ data17) →
  ∃ new_by_type removed_by_type,
    group_by_type (new_ids (index_by_id data16) (index_by_id data17))
      (index_by_id data17) = Ok new_by_type
    ∧ group_by_type (removed_ids (index_by_id data16) (index_by_id data17))
        (index_by_id data16) = Ok removed_by_type.
Proof.
  intros [H16 H17]%Forall_app. rewrite Forall_forall in H16, H17.
  destruct (group_by_type_ok
    (new_ids (index_by_id data16) (index_by_id data17)) data17)
    as (gn & En & _); [unfold new_ids, ids17; set_solver|done|].
  destruct (group_by_type_ok
    (removed_ids (index_by_id data16) (index_by_id data17)) data16)
    as (gr & Er & _); [unfold removed_ids, ids16; set_solver|done|].
  by exists gn, gr.
Qed.

Lemma build_output_no_common (data16 data17 : list (gmap (list N) pyval)) :
  Forall has_type (data16 ++ data17) →
  common_ids (index_by_id data16) (index_by_id data17) = ∅ →
  build_output version1 version2 data16 data17 = Raise ZeroDivisionError.
Proof.
  intros Hty Hcommon.
  destruct (groupings_ok data16 data17 Hty)
    as (new_by_type & removed_by_type & En & Er).
  apply Forall_app in Hty as [H16 H17].
  unfold build_output, count_types. cbv zeta.
  destruct (count_loop_ok data16 ∅ H16) as [types16 ->].
  destruct (count_loop_ok data17 ∅ H17) as [types17 ->].
  destruct (modified_ids_spec (index_by_id data16) (index_by_id data17))
    as (modified & -> & _).
  rewrite !bind_Ok, En, bind_Ok, Er, bind_Ok, Hcommon.
  unfold modified_percent, floordiv, set_len. by rewrite size_empty.
Qed.
End runs.

Lemma index_skips_missing_id (pre post : list (gmap (list N) pyval))
    (o : gmap (list N) pyval) :
  o !! py "id" = None →
  index_by_id (pre ++ o :: post) = index_by_id (pre ++ post).
Proof.
  intros Hid. unfold index_by_id. rewrite !fold_left_app. simpl.
  unfold index_step at 2. by rewrite Hid.
Qed.

(** C1, on the code: when the two snapshots share no identifier,
    [len(modified_ids)*100//len(common_ids)] divides by zero; the run ends
    in [ZeroDivisionError] with no report written, where the specification
    asks for 0. *)
Theorem percent_of_empty_common_raises `{Runtime} (fs : list N → file_state)
    (file1 file2 : list N) (data16 data17 : list (gmap (list N) pyval)) :
  fs file1 = Json data16 → fs file2 = Json data17 →
  Forall has_type (data16 ++ data17) →
  common_ids (index_by_id data16) (index_by_id data17) = ∅ →
  (∀ modified,
     modified_percent modified
       (common_ids (index_by_id data16) (index_by_id data17))
     = Raise ZeroDivisionError)
  ∧ analyse_attack_versions_markdown fs file1 file2
    = ({| printed := reading file1 file2; written := [] |},
       Raise ZeroDivisionError).
Proof.
  intros E1 E2 Hty Hcommon. split.
  - intros modified. rewrite Hcommon.
    unfold modified_percent, floordiv, set_len. by rewrite size_empty.
  - unfold analyse_attack_versions_markdown, load. rewrite E1, E2, !bind_Ok.
    by rewrite build_output_no_common.
Qed.

Lemma percent_of_empty_common_raises_witness :
  let fs := two_files (py "enterprise-attack-16.1.json") [record "a" "tool"]
              (py "enterprise-attack-17.0.json") [record "b" "tool"] in
  @analyse_attack_versions_markdown sorted_runtime fs
    (py "enterprise-attack-16.1.json") (py "enterprise-attack-17.0.json")
  = ({| printed := @reading sorted_runtime (py "enterprise-attack-16.1.json")
                     (py "enterprise-attack-17.0.json");
        written := [] |}, Raise ZeroDivisionError).
Proof.
  intros fs.
  refine (proj2 (@percent_of_empty_common_raises sorted_runtime fs _ _
            [record "a" "tool"] [record "b" "tool"] _ _ _ _)).
  - reflexivity.
  - reflexivity.
  - apply (bool_decide_unpack _). vm_compute. exact I.
  - vm_compute. reflexivity.
Defined.

(** C10. A record without a [type] in either snapshot makes the counting
    pass raise [KeyError('type')]: the run ends there, uncaught, with
    nothing written. A record without an [id] is left out of the index and
    the run goes on to write its report. *)
Theorem missing_type_is_fatal `{Runtime} (fs : list N → file_state)
    (file1 file2 : list N) (data16 data17 : list (gmap (list N) pyval)) :
  fs file1 = Json data16 → fs file2 = Json data17 →
  Exists lacks_type (data16 ++ data17) →
  (count_types data16 = Raise (KeyError (PyStr (py "type")))
   ∨ count_types data17 = Raise (KeyError (PyStr (py "type"))))
  ∧ analyse_attack_versions_markdown fs file1 file2
    = ({| printed := reading file1 file2; written := [] |},
       Raise (KeyError (PyStr (py "type"))))
  ∧ (∀ prog, main fs [prog; file1; file2]
             = ({| printed := reading file1 file2; written := [] |},
                Uncaught (KeyError (PyStr (py "type")))))
  ∧ (∀ pre post o, o !! py "id" = None →
       index_by_id (pre ++ o :: post) = index_by_id (pre ++ post))
  ∧ (let fs' := two_files (py "a-16.1.json") [anonymous "tool"; record "x" "tool"]
                  (py "a-17.0.json") [record "x" "tool"] in
     @main sorted_runtime fs' [py "prog"; py "a-16.1.json"; py "a-17.0.json"]
     = (fst (@analyse_attack_versions_markdown sorted_runtime fs'
               (py "a-16.1.json") (py "a-17.0.json")), Done)
     ∧ length (written (fst (@analyse_attack_versions_markdown sorted_runtime
                 fs' (py "a-16.1.json") (py "a-17.0.json")))) = 1%nat).
Proof.
  intros E1 E2 Hex.
  assert (Hrun : analyse_attack_versions_markdown fs file1 file2
    = ({| printed := reading file1 file2; written := [] |},
       Raise (KeyError (PyStr (py "type"))))).
  { unfold analyse_attack_versions_markdown, load. rewrite E1, E2, !bind_Ok.
    by rewrite build_output_untyped. }
  split; [|split; [exact Hrun|split; [|split]]].
  - apply Exists_app in Hex as [Hex|Hex]; [left|right];
      by apply count_loop_raise.
  - intros prog. unfold main, path_exists. by rewrite E1, E2, Hrun.
  - intros pre post o. apply index_skips_missing_id.
  - by vm_compute.
Qed.

Lemma missing_type_is_fatal_witness :
  let fs := two_files (py "a-16.1.json") [record "x" "tool"]
              (py "a-17.0.json") [record "x" "tool"; untyped "y"] in
  @analyse_attack_versions_markdown sorted_runtime fs
    (py "a-16.1.json") (py "a-17.0.json")
  = ({| printed := @reading sorted_runtime (py "a-16.1.json") (py "a-17.0.json");
        written := [] |}, Raise (KeyError (PyStr (py "type")))).
Proof.
  intros fs.
  refine (proj1 (proj2 (@missing_type_is_fatal sorted_runtime fs _ _
            [record "x" "tool"] [record "x" "tool"; untyped "y"] _ _ _))).
  - reflexivity.
  - reflexivity.
  - apply (bool_decide_unpack _). vm_compute. exact I.
Defined.


(** * Further properties of the loader and the differ *)

(** ** The index *)

Lemma index_fold_untouched (post : list (gmap (list N) pyval))
    (m : gmap pyval (gmap (list N) pyval)) (k : pyval) :
  Forall (fun o' : gmap (list N) pyval => o' !! py "id" ≠ Some k) post →
  fold_left index_step post m !! k = m !! k.
Proof.
  intros Hpost. revert m. induction Hpost as [|o' post Ho' _ IH]; intros m.
  - done.
  - simpl. rewrite IH. unfold index_step.
    destruct (o' !! py "id") as [k'|] eqn:E; [|done].
    apply lookup_insert_ne. congruence.
Qed.

(** X1. Of the records that carry an identifier the index keeps the last
    one of the list; an identifier that no record carries is not a key. *)
Theorem index_last_record_wins (pre post : list (gmap (list N) pyval))
    (o : gmap (list N) pyval) (k : pyval) :
  o !! py "id" = Some k →
  Forall (fun o' : gmap (list N) pyval => o' !! py "id" ≠ Some k) post →
  index_by_id (pre ++ o :: post) !! k = Some o
  ∧ index_by_id post !! k = None.
Proof.
  intros Hk Hpost. unfold index_by_id. split.
  - rewrite fold_left_app. simpl. rewrite (index_fold_untouched _ _ _ Hpost).
    unfold index_step at 1. rewrite Hk. apply lookup_insert_eq.
  - by rewrite (index_fold_untouched _ _ _ Hpost).
Qed.

Lemma index_last_record_wins_witness :
  let old := stamped "x" "tool" "t0" in
  let new := stamped "x" "malware" "t1" in
  index_by_id ([old] ++ new :: [record "y" "tool"]) !! PyStr (py "x") = Some new
  ∧ index_by_id [record "y" "tool"] !! PyStr (py "x") = None.
Proof.
  intros old new.
  apply (index_last_record_wins [old] [record "y" "tool"] new (PyStr (py "x"))).
  - vm_compute. reflexivity.
  - apply (bool_decide_unpack _). vm_compute. exact I.
Defined.

(** ** The counting pass *)

Lemma count_loop_counts (data : list (gmap (list N) pyval))
    (acc : gmap pyval Z) :
  Forall has_type data →
  ∃ types, for_loop count_step data acc = Ok types
    ∧ ∀ t, default 0%Z (types !! t)
           = (default 0 (acc !! t) + len (filter (of_type t) data))%Z.
Proof.
  intros Hty. revert acc. induction Hty as [|o data [t0 Ht0] _ IH]; intros acc.
  - exists acc. split; [done|]. intros t. unfold len. simpl. lia.
  - cbn [for_loop]. rewrite (count_step_Some _ _ _ Ht0), bind_Ok.
    destruct (IH (<[t0 := (default 0 (acc !! t0) + 1)%Z]> acc))
      as (types & -> & Htypes).
    exists types. split; [done|]. intros t. rewrite Htypes, filter_cons.
    destruct (decide (t0 = t)) as [->|Hne].
    + rewrite lookup_insert_eq, decide_True by exact Ht0.
      unfold len. simpl. lia.
    + rewrite lookup_insert_ne by done.
      rewrite decide_False; [done|]. unfold of_type. congruence.
Qed.

(** X2. When every record has a [type], the counting pass returns, for each
    type, the number of records of the list with that type, whether they
    carry an [id] or not. *)
Theorem count_types_counts (data : list (gmap (list N) pyval)) :
  Forall has_type data →
  ∃ types, count_types data = Ok types
    ∧ ∀ t, default 0%Z (types !! t) = len (filter (of_type t) data).
Proof.
  intros Hty. destruct (count_loop_counts data ∅ Hty) as (types & E & Htypes).
  exists types. split; [exact E|]. intros t.
  rewrite Htypes, lookup_empty. simpl. lia.
Qed.

Lemma count_types_counts_witness :
  let data := [anonymous "tool"; record "a" "tool"; record "b" "malware"] in
  ∃ types, count_types data = Ok types
    ∧ ∀ t, default 0%Z (types !! t) = len (filter (of_type t) data).
Proof.
  intros data. apply (count_types_counts data).
  apply (bool_decide_unpack _). vm_compute. exact I.
Defined.

(** ** Sizes of the identifier sets *)

(** X3. The added and the common identifiers make up the identifiers of the
    newer snapshot, the removed and the common ones those of the older, so
    the "Net Change" figure [len(new_ids) - len(removed_ids)] is the growth
    of the index. *)
Theorem net_change_is_index_growth
    (objects16 objects17 : gmap pyval (gmap (list N) pyval)) :
  (set_len (new_ids objects16 objects17)
   + set_len (common_ids objects16 objects17)
   = set_len (ids17 objects17))%Z
  ∧ (set_len (removed_ids objects16 objects17)
     + set_len (common_ids objects16 objects17)
     = set_len (ids16 objects16))%Z
  ∧ (set_len (new_ids objects16 objects17)
     - set_len (removed_ids objects16 objects17)
     = set_len (ids17 objects17) - set_len (ids16 objects16))%Z.
Proof.
  unfold set_len, new_ids, removed_ids, common_ids.
  set (A := ids16 objects16). set (B := ids17 objects17).
  assert (HB : size B = (size (B ∖ A) + size (A ∩ B))%nat).
  { rewrite <- size_union by set_solver. f_equal. apply set_eq. intros k.
    destruct (decide (k ∈ A)); set_solver. }
  assert (HA : size A = (size (A ∖ B) + size (A ∩ B))%nat).
  { rewrite <- size_union by set_solver. f_equal. apply set_eq. intros k.
    destruct (decide (k ∈ B)); set_solver. }
  lia.
Qed.

Lemma size_list_to_set_le (l : list pyval) :
  (size (list_to_set l : gset pyval) ≤ length l)%nat.
Proof.
  induction l as [|k l IH]; [by rewrite list_to_set_nil, size_empty|].
  rewrite list_to_set_cons, size_union_alt, size_singleton. simpl.
  assert (Hsub : (list_to_set l ∖ {[k]} : gset pyval) ⊆ list_to_set l)
    by set_solver.
  apply subseteq_size in Hsub. lia.
Qed.

Lemma length_omap_le {A B} (f : A → option B) (l : list A) :
  (length (omap f l) ≤ length l)%nat.
Proof.
  induction l as [|x l IH]; simpl; [done|].
  destruct (f x); simpl; [apply le_n_S|apply le_S]; exact IH.
Qed.

(** X4. The index never holds more identifiers than the snapshot has
    records, and holds as many when every record has an [id] and no two
    records share one. *)
Theorem indexed_ids_at_most_total (data : list (gmap (list N) pyval)) :
  (set_len (dom (index_by_id data)) ≤ len data)%Z
  ∧ (unique_ids data →
     Forall (fun o : gmap (list N) pyval => is_Some (o !! py "id")) data →
     set_len (dom (index_by_id data)) = len data).
Proof.
  rewrite dom_index_by_id. unfold set_len, len, ids_of, unique_ids.
  split.
  - pose proof (size_list_to_set_le
      (omap (fun o : gmap (list N) pyval => o !! py "id") data)).
    pose proof (length_omap_le
      (fun o : gmap (list N) pyval => o !! py "id") data).
    lia.
  - intros Hu Hids. rewrite size_list_to_set by exact Hu. f_equal.
    clear Hu. induction Hids as [|o data [k Hk] _ IH]; simpl; [done|].
    rewrite Hk. simpl. f_equal. exact IH.
Qed.

Lemma indexed_ids_at_most_total_witness :
  let data := [record "a" "tool"; record "b" "malware"] in
  set_len (dom (index_by_id data)) = len data.
Proof.
  intros data. apply (proj2 (indexed_ids_at_most_total data)).
  - apply (bool_decide_unpack _). vm_compute. exact I.
  - apply (bool_decide_unpack _). vm_compute. exact I.
Defined.

(** ** The modification rate *)

Lemma percent_of_subset (modified common : gset pyval) :
  modified ⊆ common → common ≠ ∅ →
  ∃ p, modified_percent modified common = Ok p
    ∧ (0 ≤ p ≤ 100)%Z ∧ (p = 100%Z ↔ modified = common).
Proof.
  intros Hsub Hne. unfold modified_percent, floordiv, set_len.
  pose proof (subseteq_size _ _ Hsub) as Hle.
  assert (Hpos : (0 < size common)%nat).
  { destruct (size common) eqn:E; [|lia].
    apply size_empty_inv, leibniz_equiv in E. done. }
  rewrite decide_False by lia. eexists. split; [reflexivity|].
  set (m := Z.of_nat (size modified)). set (c := Z.of_nat (size common)).
  assert (0 ≤ m ≤ c)%Z by lia. assert (0 < c)%Z by lia.
  split; [split|split].
  - apply Z.div_pos; lia.
  - apply Z.div_le_upper_bound; lia.
  - intros Hp. pose proof (Z.mul_div_le (m * 100) c ltac:(lia)) as Hq.
    rewrite Hp in Hq.
    apply set_subseteq_size_eq; [done|lia].
  - intros ->. subst m c. by rewrite Z.mul_comm, Z.div_mul by lia.
Qed.

(** X5. When the snapshots share an identifier the modification rate is
    computed without error and lies between 0 and 100; it is 100 exactly
    when every common identifier is modified. *)
Theorem modification_rate_bounds `{Runtime}
    (objects16 objects17 : gmap pyval (gmap (list N) pyval)) :
  common_ids objects16 objects17 ≠ ∅ →
  ∃ modified p,
    modified_ids objects16 objects17 = Ok modified
    ∧ modified_percent modified (common_ids objects16 objects17) = Ok p
    ∧ (0 ≤ p ≤ 100)%Z
    ∧ (p = 100%Z ↔ modified = common_ids objects16 objects17).
Proof.
  intros Hne.
  destruct (modified_ids_spec objects16 objects17) as (M & E & HM).
  destruct (percent_of_subset M (common_ids objects16 objects17))
    as (p & Ep & Hp); [intros k Hk; by apply HM|done|].
  by exists M, p.
Qed.

Lemma modification_rate_bounds_witness :
  let objects16 :=
    index_by_id [stamped "1" "malware" "t0"; stamped "2" "tool" "t0"] in
  let objects17 :=
    index_by_id [stamped "1" "malware" "t1"; stamped "2" "tool" "t0"] in
  ∃ modified p,
    @modified_ids sorted_runtime objects16 objects17 = Ok modified
    ∧ modified_percent modified (common_ids objects16 objects17) = Ok p
    ∧ (0 ≤ p ≤ 100)%Z
    ∧ (p = 100%Z ↔ modified = common_ids objects16 objects17).
Proof.
  intros objects16 objects17.
  apply (@modification_rate_bounds sorted_runtime objects16 objects17).
  apply (bool_decide_unpack _). vm_compute. exact I.
Defined.

(** ** Runs that write the report *)

Section outcomes.
Context `{Runtime}.



End outcomes.






(** * Further properties of the text functions *)

(** ** What [clean_text] leaves behind *)

Lemma clean_char_shape (c : N) :
  Forall (fun d => d ∉ replacements.*1) (clean_loop replacements [c])
  ∧ (1 ≤ length (clean_loop replacements [c]) ≤ 3)%nat
  ∧ (c ≠ 91 → 91 ∉ clean_loop replacements [c]).
Proof.
  destruct (decide (c ∈ replacements.*1)) as [Hin|Hout].
  - (let l := eval vm_compute in (fst <$> replacements) in
     change (fst <$> replacements) with l in Hin).
    repeat (apply elem_of_cons in Hin as [->|Hin];
      [split; [apply (bool_decide_unpack _); by vm_compute|];
       split; [vm_compute; lia|];
       intros _; apply (bool_decide_unpack _); by vm_compute|]).
    by apply elem_of_nil in Hin.
  - rewrite clean_loop_other by done. split; [by apply Forall_singleton|].
    split; [simpl; lia|]. intros Hc. set_solver.
Qed.

Lemma clean_loop_shape (s : list N) :
  Forall (fun d => d ∉ replacements.*1) (clean_loop replacements s)
  ∧ (length s ≤ length (clean_loop replacements s) ≤ 3 * length s)%nat
  ∧ (91 ∉ s → 91 ∉ clean_loop replacements s).
Proof.
  rewrite (clean_loop_chars replacements s).
  induction s as [|c s (IH1 & IH2 & IH3)]; cbn [flat_map].
  - split; [constructor|]. split; [simpl; lia|done].
  - destruct (clean_char_shape c) as (H1 & H2 & H3).
    split; [by apply Forall_app|]. split.
    + rewrite length_app. cbn [length]. lia.
    + intros Hs. apply not_elem_of_cons in Hs as [Hc Hs].
      rewrite elem_of_app. intros [?|?]; [by apply H3|by apply IH3].
Qed.

Lemma clean_loop_fixed (s : list N) :
  Forall (fun d => d ∉ replacements.*1) s → clean_loop replacements s = s.
Proof.
  intros Hs. rewrite (clean_loop_chars replacements s).
  induction Hs as [|c s Hc _ IH]; [done|].
  cbn [flat_map]. by rewrite clean_loop_other, IH.
Qed.

(** X9. A cleaned string holds none of the eighteen characters of the
    replacement table, is never shorter than the original and at most three
    times as long; a string that holds none of them, any ASCII string among
    others, comes back unchanged. *)
Theorem clean_text_removes_table_characters (s : list N) :
  ∃ cleaned, clean_text (PyStr s) = PyStr cleaned
    ∧ Forall (fun d => d ∉ replacements.*1) cleaned
    ∧ (length s ≤ length cleaned ≤ 3 * length s)%nat
    ∧ (Forall (fun d => d ∉ replacements.*1) s → cleaned = s)
    ∧ (Forall (fun d => d < 128) s → cleaned = s).
Proof.
  exists (clean_loop replacements s).
  destruct (clean_loop_shape s) as (H1 & H2 & _).
  split; [destruct s; [by rewrite clean_loop_nil|done]|].
  split; [done|]. split; [done|]. split; [apply clean_loop_fixed|].
  intros Hs. apply clean_loop_fixed. eapply Forall_impl; [exact Hs|].
  intros d Hd Hin.
  (let l := eval vm_compute in (fst <$> replacements) in
   change (fst <$> replacements) with l in Hin).
  repeat (apply elem_of_cons in Hin as [->|Hin]; [by vm_compute in Hd|]).
  by apply elem_of_nil in Hin.
Qed.

(** ** [split] and [join] *)

Lemma split_go_words (text : list N) (cur : option (list N)) :
  (∀ acc, cur = Some acc → word acc) →
  Forall word (split_go cur text)
  ∧ concat (split_go cur text)
    = default [] cur ++ filter (fun c => nonspace c = true) text.
Proof.
  revert cur. induction text as [|c text IH]; intros cur Hcur.
  - destruct cur as [acc|]; simpl.
    + split; [constructor; [by apply Hcur|constructor]|].
      by rewrite !app_nil_r.
    + by split.
  - cbn [split_go]. destruct (isspace c) eqn:Hc.
    + rewrite filter_cons_False by (unfold nonspace; by rewrite Hc).
      destruct (IH None) as [IH1 IH2]; [done|].
      destruct cur as [acc|]; simpl.
      * split; [constructor; [by apply Hcur|done]|]. by rewrite IH2.
      * by split.
    + rewrite filter_cons_True by (unfold nonspace; by rewrite Hc).
      destruct (IH (Some (default [] cur ++ [c]))) as [IH1 IH2].
      { intros acc [= <-]. split; [by destruct (default [] cur)|].
        apply Forall_app. split.
        - destruct cur as [acc|]; [by apply Hcur|constructor].
        - apply Forall_singleton. unfold nonspace. by rewrite Hc. }
      split; [done|]. rewrite IH2. simpl. by rewrite <- app_assoc.
Qed.

Lemma str_split_join (ws : list (list N)) :
  Forall word ws → str_split (str_join (py " ") ws) = ws.
Proof.
  induction 1 as [|w ws [Hne Hw] Hws IH]; [done|].
  destruct ws as [|w' ws].
  - change (str_join (py " ") [w]) with w.
    pose proof (str_split_word w [] Hne Hw I) as E.
    by rewrite app_nil_r in E.
  - change (str_join (py " ") (w :: w' :: ws))
      with (w ++ 32 :: str_join (py " ") (w' :: ws)).
    rewrite str_split_word; [|done|done|by vm_compute].
    f_equal. rewrite <- IH at 2. unfold str_split.
    by apply (split_go_spaces [32]), Forall_singleton.
Qed.

Lemma collapse_spaces_words (s : list N) :
  Forall word (str_split s)
  ∧ collapse_spaces (collapse_spaces s) = collapse_spaces s.
Proof.
  destruct (split_go_words s None) as [Hwords _]; [done|].
  split; [done|]. unfold collapse_spaces at 1.
  fold (collapse_spaces s). unfold collapse_spaces at 1.
  by rewrite str_split_join.
Qed.

(** X10. [split] cuts a text into its words, each without white space and
    none empty, that together hold the characters of the text that are no
    white space; splitting what [' '.join] made of words gives the words
    back, so collapsing white space twice is collapsing it once. *)
Theorem collapse_spaces_idempotent (s : list N) :
  Forall word (str_split s)
  ∧ concat (str_split s) = filter (fun c => nonspace c = true) s
  ∧ str_split (collapse_spaces s) = str_split s
  ∧ collapse_spaces (collapse_spaces s) = collapse_spaces s.
Proof.
  destruct (split_go_words s None) as [Hwords Hconcat]; [done|].
  pose proof (str_split_join (str_split s) Hwords) as Hjoin.
  split; [done|]. split; [done|]. split; [done|].
  unfold collapse_spaces at 1. fold (collapse_spaces s) in Hjoin.
  by rewrite Hjoin.
Qed.

(** ** Descriptions without a bracket *)

Lemma re_sub_no_bracket (s : list N) :
  91 ∉ s → re_sub link_re link_group1 s = s.
Proof.
  intros Hs. unfold re_sub.
  rewrite <- (app_nil_r s) at 1. rewrite re_sub_link_prefix by done.
  simpl. by rewrite app_nil_r.
Qed.

(** X11. A description without an opening square bracket comes out of the
    four blocks that rewrite links exactly as it comes out of the technique
    block. *)
Theorem describe_without_bracket (o : gmap (list N) pyval)
    (fallback s : list N) :
  o !! py "description" = Some (PyStr s) → 91 ∉ s →
  describe true fallback o = describe false fallback o.
Proof.
  intros Hd Hs. unfold describe. rewrite Hd.
  destruct s as [|c s]; [done|]. cbn [truthy].
  rewrite re_sub_no_bracket; [done|].
  change (str_of (clean_text (PyStr (c :: s))))
    with (clean_loop replacements (c :: s)).
  rewrite str_replace_newline. intros (d & Hd' & Hin)%list_elem_of_fmap.
  destruct (clean_loop_shape (c :: s)) as (_ & _ & Hclean).
  destruct (d =? 10); [discriminate Hd'|]. subst d. by apply Hclean.
Qed.

Lemma describe_without_bracket_witness :
  let o : gmap (list N) pyval :=
    {[ py "description" := PyStr (py "Uses  a
 backdoor") ]} in
  describe true [] o = describe false [] o.
Proof.
  intros o. apply (describe_without_bracket o [] (py "Uses  a
 backdoor")).
  - vm_compute. reflexivity.
  - apply (bool_decide_unpack _). by vm_compute.
Defined.

(** * Further properties of the reporter *)

(** ** The listing blocks *)

Lemma group_loop_nonempty (objects : gmap pyval (gmap (list N) pyval))
    (l : list pyval) (by_type g : gmap pyval (list (gmap (list N) pyval))) :
  for_loop (group_step objects) l by_type = Ok g →
  (∀ t objs, by_type !! t = Some objs → objs ≠ []) →
  ∀ t objs, g !! t = Some objs → objs ≠ [].
Proof.
  revert by_type. induction l as [|k l IH]; intros by_type Hloop Hinv.
  - simpl in Hloop. by injection Hloop as <-.
  - cbn [for_loop] in Hloop.
    destruct (group_step objects by_type k) as [by_type'|e] eqn:Hstep;
      [|done].
    rewrite bind_Ok in Hloop. apply (IH by_type' Hloop).
    unfold group_step, lookup_id, getitem in Hstep.
    destruct (objects !! k) as [o|]; [|done]. rewrite bind_Ok in Hstep.
    destruct (o !! py "type") as [t0|]; [|done]. rewrite bind_Ok in Hstep.
    injection Hstep as <-. intros t objs.
    destruct (decide (t0 = t)) as [->|Hne].
    + rewrite lookup_insert_eq. intros [= <-]. by destruct (default [] _).
    + rewrite lookup_insert_ne by done. apply Hinv.
Qed.

(** X12. A "New ..." block is emitted exactly when at least one record of
    the grouped identifiers has the type of the block: the grouping keeps no
    empty list. The block then has a heading, one line for each of these
    records and a closing empty line. *)
Theorem listing_emitted_iff `{Runtime} (ids : gset pyval)
    (data : list (gmap (list N) pyval)) (t title : list N) (links : bool)
    (fallback : list N) :
  ids ⊆ dom (index_by_id data) → Forall has_type data →
  ∃ by_type, group_by_type ids (index_by_id data) = Ok by_type
    ∧ (listing t title links fallback by_type = []
       ↔ iteration_group ids (PyStr t) (index_by_id data) = [])
    ∧ (iteration_group ids (PyStr t) (index_by_id data) ≠ [] →
       length (listing t title links fallback by_type)
       = (length (iteration_group ids (PyStr t) (index_by_id data)) + 2)%nat
       ∧ last (listing t title links fallback by_type) = Some []).
Proof.
  intros Hsub Hty. rewrite Forall_forall in Hty.
  destruct (group_by_type_ok ids data Hsub Hty) as (g & E & Hg).
  exists g. split; [exact E|].
  pose proof (group_loop_nonempty _ _ _ _ E) as Hne.
  specialize (Hg (PyStr t)). unfold listing.
  destruct (g !! PyStr t) as [objs|] eqn:Et; simpl in Hg; rewrite <- Hg.
  - assert (objs ≠ []) by (apply (Hne ltac:(by intros ? ?) (PyStr t)); done).
    split; [by split|]. intros _. split.
    + simpl. rewrite length_app, length_imap. simpl. lia.
    + rewrite app_assoc. apply last_snoc.
  - split; [done|]. by intros [].
Qed.

Lemma listing_emitted_iff_witness :
  let data := [record "a" "tool"; record "b" "malware"] in
  let ids : gset pyval := {[ PyStr (py "a"); PyStr (py "b") ]} in
  ∃ by_type, @group_by_type sorted_runtime ids (index_by_id data) = Ok by_type
    ∧ (listing (py "tool") (py "New Tools") true [] by_type = []
       ↔ @iteration_group sorted_runtime ids (PyStr (py "tool"))
           (index_by_id data) = [])
    ∧ (@iteration_group sorted_runtime ids (PyStr (py "tool"))
         (index_by_id data) ≠ [] →
       length (listing (py "tool") (py "New Tools") true [] by_type)
       = (length (@iteration_group sorted_runtime ids (PyStr (py "tool"))
                    (index_by_id data)) + 2)%nat
       ∧ last (listing (py "tool") (py "New Tools") true [] by_type)
         = Some []).
Proof.
  intros data ids.
  apply (@listing_emitted_iff sorted_runtime ids data).
  - apply (bool_decide_unpack _). by vm_compute.
  - apply (bool_decide_unpack _). by vm_compute.
Defined.

(** ** Sizes of the groups *)

(** X13. When every record has a [type] and identifiers are unique within
    each snapshot, the group of a type among the added (removed) records
    has as many members as the newer (older) snapshot has records of that
    type with an added (removed) identifier; the two relationship counts of
    the report are such sizes. *)
Theorem group_sizes `{Runtime} (data16 data17 : list (gmap (list N) pyval)) :
  Forall has_type (data16 ++ data17) →
  unique_ids data16 → unique_ids data17 →
  let new := new_ids (index_by_id data16) (index_by_id data17) in
  let removed := removed_ids (index_by_id data16) (index_by_id data17) in
  ∃ new_by_type removed_by_type,
    group_by_type new (index_by_id data17) = Ok new_by_type
    ∧ group_by_type removed (index_by_id data16) = Ok removed_by_type
    ∧ (∀ t, len (default [] (new_by_type !! t))
            = len (source_group new t data17)
          ∧ len (default [] (removed_by_type !! t))
            = len (source_group removed t data16))
    ∧ relationships new_by_type
      = len (source_group new (PyStr (py "relationship")) data17)
    ∧ relationships removed_by_type
      = len (source_group removed (PyStr (py "relationship")) data16).
Proof.
  intros [H16 H17]%Forall_app Hu16 Hu17 new removed.
  rewrite Forall_forall in H16, H17.
  destruct (group_by_type_ok new data17) as (gn & En & Hn);
    [subst new; unfold new_ids, ids17; set_solver|done|].
  destruct (group_by_type_ok removed data16) as (gr & Er & Hr);
    [subst removed; unfold removed_ids, ids16; set_solver|done|].
  assert (Hsize : ∀ t,
    len (default [] (gn !! t)) = len (source_group new t data17)
    ∧ len (default [] (gr !! t)) = len (source_group removed t data16)).
  { intros t. unfold len. rewrite Hn, Hr.
    by rewrite !iteration_group_perm. }
  exists gn, gr. split; [done|]. split; [done|]. split; [done|].
  unfold relationships. split; apply Hsize.
Qed.

Lemma group_sizes_witness :
  let data16 := [record "r1" "relationship"; record "x" "tool"] in
  let data17 := [record "x" "tool"; record "r2" "relationship"] in
  ∃ new_by_type removed_by_type,
    @group_by_type sorted_runtime
      (new_ids (index_by_id data16) (index_by_id data17))
      (index_by_id data17) = Ok new_by_type
    ∧ @group_by_type sorted_runtime
        (removed_ids (index_by_id data16) (index_by_id data17))
        (index_by_id data16) = Ok removed_by_type
    ∧ (∀ t, len (default [] (new_by_type !! t))
            = len (source_group
                     (new_ids (index_by_id data16) (index_by_id data17)) t
                     data17)
          ∧ len (default [] (removed_by_type !! t))
            = len (source_group
                     (removed_ids (index_by_id data16) (index_by_id data17)) t
                     data16))
    ∧ relationships new_by_type
      = len (source_group (new_ids (index_by_id data16) (index_by_id data17))
               (PyStr (py "relationship")) data17)
    ∧ relationships removed_by_type
      = len (source_group
               (removed_ids (index_by_id data16) (index_by_id data17))
               (PyStr (py "relationship")) data16).
Proof.
  intros data16 data17.
  apply (@group_sizes sorted_runtime data16 data17).
  - apply (bool_decide_unpack _). by vm_compute.
  - apply (bool_decide_unpack _). by vm_compute.
  - apply (bool_decide_unpack _). by vm_compute.
Defined.

(** ** The version label *)

Lemma re_search_here (r : list item) (t : list N) (ps : list (list N))
    (rest : list N) :
  match_here r t = Some (ps, rest) → re_search r t = Some ps.
Proof. intros E. destruct t; simpl; by rewrite E. Qed.

Lemma extract_version_pair `{Runtime} (d1 d2 : list N) :
  d1 ≠ [] → d2 ≠ [] → all_of isdigit d1 → all_of isdigit d2 →
  extract_version (d1 ++ [46] ++ d2) = d1 ++ [46] ++ d2.
Proof.
  intros Hd1 Hd2 Ha1 Ha2. unfold extract_version.
  destruct (version_match_cases (d1 ++ [46] ++ d2))
    as [(e1 & e2 & rest & E & _ & _ & Hb1 & Hb2 & Hrest & Hm)|[_ Hno]].
  - rewrite (re_search_here _ _ _ _ Hm).
    destruct (span_unique isdigit d1 e1 (46 :: d2) (46 :: e2 ++ rest))
      as [<- [= E2]]; [done|done|done|apply stops_dot|apply stops_dot|].
    assert (rest = []) as ->.
    { destruct rest as [|c rest]; [done|]. simpl in Hrest.
      rewrite E2 in Ha2. apply Forall_app in Ha2 as [_ Ha2].
      apply Forall_cons in Ha2 as [Hc _]. congruence. }
    rewrite app_nil_r in E2. subst e2. simpl. by rewrite app_nil_r.
  - exfalso. apply Hno. exists (d1 ++ [46] ++ d2), [].
    split; [by rewrite app_nil_r|]. by exists d1, d2.
Qed.

(** X14. A version label is its own version label: extracting from an
    extracted label, or from ["unknown"], gives it back, so the report file
    name is built from strings that are either ["unknown"] or digits, a
    full stop, digits. *)
Theorem extract_version_idempotent `{Runtime} (filename : list N) :
  extract_version (extract_version filename) = extract_version filename
  ∧ (extract_version filename = py "unknown"
     ∨ dotted_pair (extract_version filename)).
Proof.
  assert (Hshape : extract_version filename = py "unknown"
                   ∨ dotted_pair (extract_version filename)).
  { unfold extract_version.
    pose proof (re_search_spec version_re filename) as Hs.
    destruct (re_search version_re filename) as [ps|]; [right|by left].
    destruct Hs as (pre & t & rest & _ & Hm & _).
    destruct (version_match_cases t)
      as [(d1 & d2 & post & _ & Hd1 & Hd2 & Ha1 & Ha2 & _ & Hm')|[Hn _]];
      [|congruence].
    rewrite Hm' in Hm. injection Hm as <- _. exists d1, d2.
    simpl. by rewrite app_nil_r. }
  split; [|exact Hshape].
  destruct Hshape as [->|(d1 & d2 & -> & Hd1 & Hd2 & Ha1 & Ha2)].
  - by vm_compute.
  - by apply extract_version_pair.
Qed.

(** ** Thousands separators *)

Lemma py_String (a : ascii) (s : string) :
  py (String a s) = N_of_ascii a :: py s.
Proof. reflexivity. Qed.

Lemma uint_decimal_digits (d : Decimal.uint) :
  Forall decimal_digit (py (NilEmpty.string_of_uint d)).
Proof.
  induction d; cbn [NilEmpty.string_of_uint]; [constructor|..];
    rewrite py_String; (constructor; [by vm_compute|done]).
Qed.

Lemma digits_decimal (n : N) : Forall decimal_digit (digits n).
Proof.
  unfold digits, NilZero.string_of_uint.
  pose proof (uint_decimal_digits (N.to_uint n)) as Hd.
  destruct (N.to_uint n); try exact Hd.
  rewrite py_String. constructor; [by vm_compute|constructor].
Qed.

Lemma group3_spec (fuel : nat) (ds : list N) :
  (length ds ≤ fuel)%nat → 44 ∉ ds →
  filter (fun c => c ≠ 44) (group3 ds) = ds
  ∧ length (group3 ds) = (length ds + (length ds - 1) / 3)%nat
  ∧ ∀ i, group3 ds !! i = Some 44
         ↔ (i mod 4 = 3)%nat ∧ (i < length (group3 ds))%nat.
Proof.
  revert ds. induction fuel as [|fuel IH]; intros ds Hlen Hno.
  { destruct ds; [|simpl in Hlen; lia]. repeat split; try done.
    - by intros [_ ?%Nat.nlt_0_r]. }
  assert (Hsmall : (length ds ≤ 3)%nat →
    filter (fun c => c ≠ 44) ds = ds
    ∧ length ds = (length ds + (length ds - 1) / 3)%nat
    ∧ ∀ i, ds !! i = Some 44 ↔ (i mod 4 = 3)%nat ∧ (i < length ds)%nat).
  { intros Hle. split; [|split].
    - clear -Hno. induction ds as [|c ds IHds]; [done|].
      apply not_elem_of_cons in Hno as [Hc Hds].
      rewrite filter_cons_True by congruence. by rewrite IHds.
    - rewrite (Nat.div_small (length ds - 1) 3) by lia. lia.
    - intros i. split.
      + intros Hi. exfalso. apply Hno. by apply list_elem_of_lookup_2 in Hi.
      + intros [Hmod Hi]. exfalso.
        rewrite Nat.mod_small in Hmod by lia. lia. }
  destruct ds as [|a [|b [|c [|d rest]]]]; try (apply Hsmall; simpl; lia).
  clear Hsmall. change (group3 (a :: b :: c :: d :: rest))
    with (a :: b :: c :: 44 :: group3 (d :: rest)).
  apply not_elem_of_cons in Hno as [Ha Hno].
  apply not_elem_of_cons in Hno as [Hb Hno].
  apply not_elem_of_cons in Hno as [Hc Hno].
  destruct (IH (d :: rest)) as (IH1 & IH2 & IH3); [simpl in *; lia|done|].
  split; [|split].
  - rewrite !filter_cons_True by congruence.
    rewrite filter_cons_False by (intros Hn; by apply Hn).
    by rewrite IH1.
  - cbn [length]. rewrite IH2. cbn [length].
    generalize (length rest). intros k.
    replace (S k - 1)%nat with k by lia.
    replace (S (S (S (S k))) - 1)%nat with (k + 1 * 3)%nat by lia.
    rewrite Nat.div_add by lia. lia.
  - intros i. destruct i as [|[|[|[|i]]]]; cbn [length].
    + simpl. split; [intros [= ?]; congruence|by intros [? _]].
    + simpl. split; [intros [= ?]; congruence|by intros [? _]].
    + simpl. split; [intros [= ?]; congruence|by intros [? _]].
    + simpl. split; [intros _; split; [done|lia]|done].
    + change ((a :: b :: c :: 44 :: group3 (d :: rest)) !! S (S (S (S i))))
        with (group3 (d :: rest) !! i).
      rewrite IH3.
      replace (S (S (S (S i)))) with (i + 1 * 4)%nat by lia.
      rewrite Nat.Div0.mod_add. split; intros [? ?]; split; try done; lia.
Qed.

Lemma decimal_no_comma (ds : list N) : Forall decimal_digit ds → 44 ∉ ds.
Proof.
  intros Hds Hin. rewrite Forall_forall in Hds.
  destruct (Hds 44 Hin) as [H48 _]. by vm_compute in H48.
Qed.

Lemma filter_rev {A} (P : A → Prop) `{∀ x, Decision (P x)} (l : list A) :
  filter P (rev l) = rev (filter P l).
Proof.
  induction l as [|x l IH]; [done|]. simpl.
  rewrite filter_app, IH, !filter_cons, filter_nil.
  destruct (decide (P x)); simpl; [done|]. by rewrite app_nil_r.
Qed.

(** X15. A count rendered with [:,] is its plain decimal rendering with
    commas put in: taking the commas out gives the digits back, and,
    counting from the right, the commas stand at every fourth place and
    nowhere else, never in front. *)
Theorem thousands_separators (n : Z) :
  filter (fun c => c ≠ 44) (fmt_comma n) = fmt_plain n
  ∧ Forall decimal_digit (fmt_plain n)
  ∧ length (fmt_comma n)
    = (length (fmt_plain n) + (length (fmt_plain n) - 1) / 3)%nat
  ∧ ∀ i, rev (fmt_comma n) !! i = Some 44
         ↔ (i mod 4 = 3)%nat ∧ (i < length (fmt_comma n))%nat.
Proof.
  unfold fmt_comma, fmt_plain.
  pose proof (digits_decimal (Z.abs_N n)) as Hd.
  set (ds := digits (Z.abs_N n)) in *.
  assert (Hno : 44 ∉ rev ds).
  { intros Hin. apply (decimal_no_comma ds Hd).
    apply list_elem_of_In. apply in_rev. by apply list_elem_of_In. }
  destruct (group3_spec (length (rev ds)) (rev ds) (le_n _) Hno)
    as (H1 & H2 & H3).
  split; [by rewrite filter_rev, H1, rev_involutive|].
  split; [done|]. rewrite length_rev, rev_involutive.
  rewrite length_rev in H2. by split.
Qed.

(** ** Entries are single lines *)

Lemma str_join_chars (ws : list (list N)) (c : N) :
  Forall word ws → c ∈ str_join (py " ") ws → nonspace c = true ∨ c = 32.
Proof.
  induction 1 as [|w ws [_ Hw] _ IH]; [by intros ?%elem_of_nil|].
  assert (Hin : c ∈ w → nonspace c = true).
  { intros Hc. unfold all_of in Hw. rewrite Forall_forall in Hw. by apply Hw. }
  destruct ws as [|w' ws]; [by left; apply Hin|].
  change (str_join (py " ") (w :: w' :: ws))
    with (w ++ 32 :: str_join (py " ") (w' :: ws)).
  intros [?|[-> | ?]%elem_of_cons]%elem_of_app; [left; by apply Hin|by right|].
  by apply IH.
Qed.

(** X16. The text of a description that is present and not empty is one
    line: after cleaning, in every block, its only white space characters
    are single spaces, so it holds no line break, and it neither starts nor
    ends with a space. *)
Theorem description_is_one_line (links : bool)
    (o : gmap (list N) pyval) (fallback s : list N) :
  o !! py "description" = Some (PyStr s) → s ≠ [] →
  (∀ c, c ∈ describe links fallback o → isspace c = true → c = 32)
  ∧ (10 ∉ describe links fallback o)
  ∧ (∀ c, head (describe links fallback o) = Some c → nonspace c = true)
  ∧ (∀ c, last (describe links fallback o) = Some c → nonspace c = true)
  ∧ collapse_spaces (describe links fallback o) = describe links fallback o.
Proof.
  intros Hd Hs. unfold describe. rewrite Hd.
  destruct s as [|c0 s]; [done|]. cbn [truthy].
  set (text := if links then _ else _). clearbody text.
  destruct (collapse_spaces_words text) as (Hwords & Hidem).
  assert (Hchars : ∀ c, c ∈ collapse_spaces text → isspace c = true → c = 32).
  { intros c Hc Hsp.
    destruct (str_join_chars _ c Hwords Hc) as [Hn| ->]; [|done].
    unfold nonspace in Hn. by rewrite Hsp in Hn. }
  split; [exact Hchars|]. split; [|split; [|split; [|exact Hidem]]].
  - intros Hin. by specialize (Hchars 10 Hin eq_refl).
  - unfold collapse_spaces. intros c.
    destruct Hwords as [|w ws [Hne Hw] Hws]; [done|].
    destruct w as [|c1 w]; [done|]. apply Forall_cons in Hw as [Hc1 _].
    destruct ws; simpl; by intros [= <-].
  - unfold collapse_spaces. intros c. revert Hwords.
    generalize (str_split text). intros ws Hwords.
    induction Hwords as [|w ws [Hne Hw] Hws IH]; [done|].
    destruct ws as [|w' ws].
    + simpl. intros Hl. unfold all_of in Hw. rewrite Forall_forall in Hw.
      apply Hw. destruct w as [|c1 w] using rev_ind; [done|].
      rewrite last_snoc in Hl. injection Hl as <-. set_solver.
    + change (str_join (py " ") (w :: w' :: ws))
        with (w ++ 32 :: str_join (py " ") (w' :: ws)).
      rewrite last_app. rewrite last_cons.
      destruct (last (str_join (py " ") (w' :: ws))) as [c'|] eqn:El.
      * intros [= <-]. by apply IH.
      * exfalso. apply last_None in El.
        apply Forall_cons in Hws as [[Hne' _] _].
        destruct w', ws; simpl in El; done.
Qed.

Lemma description_is_one_line_witness :
  let o := added_sample "malware" in
  (10 ∉ describe true [] o)
  ∧ collapse_spaces (describe true [] o) = describe true [] o.
Proof.
  intros o.
  destruct (description_is_one_line true o [] link_sample) as (_ & H & _ & _ & H').
  - vm_compute. reflexivity.
  - by vm_compute.
  - by split.
Defined.

(** ** What the iteration order cannot change *)

(** X17. The set of modified identifiers does not depend on the order in
    which the runtime iterates the common identifiers. *)
Theorem modified_ids_any_order (rt1 rt2 : Runtime)
    (objects16 objects17 : gmap pyval (gmap (list N) pyval)) :
  @modified_ids rt1 objects16 objects17 = @modified_ids rt2 objects16 objects17.
Proof.
  destruct (@modified_ids_spec rt1 objects16 objects17) as (M1 & -> & H1).
  destruct (@modified_ids_spec rt2 objects16 objects17) as (M2 & -> & H2).
  f_equal. apply set_eq. intros k. by rewrite H1, H2.
Qed.
